(** * ExcelExporter: a shallow embedding of [Tools/ExcelExporter/excel_to_unity.py]

    The exporter reads workbooks, infers one primitive type per column,
    normalises every row to that type and writes one JSON document per
    table, together with C# record types and a loader.

    Conventions of the embedding.
    - Python [str] is modelled by [string] over the ASCII alphabet; the
      character classes ([isspace], [isalnum], case mapping) are those of
      Python on code points below 128, and bytes above 127 are treated as
      caseless symbols.
    - Python [int] is [Z] (unbounded; the cap that recent interpreters put
      on the digits of [int]/[str] conversions is not modelled), Python
      [float] is IEEE binary64, carried by [spec_float] with [prec = 53]
      and [emax = 1024].
    - Python [dict] is an association list in insertion order whose keys
      are kept distinct by [dict_set].
    - Exceptions are values of [exn]; code that can raise returns
      [result]. *)

From Stdlib Require Import ZArith List String Ascii Bool Lia.
From Stdlib Require Import Floats.SpecFloat.
Import ListNotations.

Local Open Scope string_scope.
Local Open Scope Z_scope.

(* ===================================================================== *)
(** ** Python text                                                        *)
(* ===================================================================== *)

Module PyStr.

Definition code (c : ascii) : Z := Z.of_nat (nat_of_ascii c).
Definition chr (z : Z) : ascii := ascii_of_nat (Z.to_nat z).

Definition between (lo hi : Z) (c : ascii) : bool :=
  (lo <=? code c) && (code c <=? hi).

(** [str.isspace] on ASCII: TAB, LF, VT, FF, CR, FS, GS, RS, US, SPACE. *)
Definition isspace (c : ascii) : bool :=
  between 9 13 c || between 28 32 c.

Definition isdigit (c : ascii) : bool := between 48 57 c.
Definition isupper (c : ascii) : bool := between 65 90 c.
Definition islower (c : ascii) : bool := between 97 122 c.
Definition isalnum (c : ascii) : bool := isdigit c || isupper c || islower c.

Definition lower_char (c : ascii) : ascii :=
  if isupper c then chr (code c + 32) else c.
Definition upper_char (c : ascii) : ascii :=
  if islower c then chr (code c - 32) else c.

Fixpoint map_chars (f : ascii -> ascii) (s : string) : string :=
  match s with
  | EmptyString => EmptyString
  | String c s' => String (f c) (map_chars f s')
  end.

(** [s.lower()] *)
Definition lower (s : string) : string := map_chars lower_char s.

(** [s.capitalize()]: first character upper-cased, the rest lower-cased. *)
Definition capitalize (s : string) : string :=
  match s with
  | EmptyString => EmptyString
  | String c s' => String (upper_char c) (lower s')
  end.

Fixpoint lstrip (s : string) : string :=
  match s with
  | String c s' => if isspace c then lstrip s' else s
  | EmptyString => EmptyString
  end.

Fixpoint rstrip (s : string) : string :=
  match s with
  | String c s' =>
      match rstrip s' with
      | EmptyString => if isspace c then EmptyString else String c EmptyString
      | r => String c r
      end
  | EmptyString => EmptyString
  end.

(** [s.strip()] *)
Definition strip (s : string) : string := rstrip (lstrip s).

(** [c in s] for a one-character [c]. *)
Fixpoint contains_char (c : ascii) (s : string) : bool :=
  match s with
  | EmptyString => false
  | String d s' => Ascii.eqb c d || contains_char c s'
  end.

(** [t in s] for a substring [t] (also C#'s [s.Contains(t)]). *)
Fixpoint contains (t s : string) : bool :=
  String.prefix t s ||
  match s with
  | EmptyString => false
  | String _ s' => contains t s'
  end.

(** [x in (a, b, ...)] for strings. *)
Definition mem (x : string) (l : list string) : bool :=
  existsb (String.eqb x) l.

Fixpoint repeat_char (c : ascii) (n : nat) : string :=
  match n with
  | O => EmptyString
  | S n' => String c (repeat_char c n')
  end.

Definition dot : ascii := "."%char.

End PyStr.

(* ===================================================================== *)
(** ** Python integers as text                                            *)
(* ===================================================================== *)

Module PyInt.
Import PyStr.

Definition digit_val (c : ascii) : Z := code c - 48.
Definition digit_chr (d : Z) : ascii := chr (48 + d).

(** Decimal digits of a non-negative integer, most significant first. *)
Fixpoint digits_fuel (fuel : nat) (n : Z) (acc : string) : string :=
  match fuel with
  | O => acc
  | S fuel' =>
      let acc' := String (digit_chr (n mod 10)) acc in
      if n <? 10 then acc' else digits_fuel fuel' (n / 10) acc'
  end.

Definition digits (n : Z) : string :=
  digits_fuel (S (Z.to_nat (Z.log2 n))) n EmptyString.

(** [str(n)] for an [int]. *)
Definition to_string (n : Z) : string :=
  if n <? 0 then String "-"%char (digits (- n)) else digits n.

(** A [digitpart] of Python's numeric grammar: digits, single underscores
    allowed between two digits.  [digitpart_tail] continues after a first
    digit; it returns the value read, the number of digits and the rest
    of the text. *)
Fixpoint digitpart_tail (s : string) (acc : Z) (n : nat) : Z * nat * string :=
  match s with
  | String c s' =>
      if isdigit c then digitpart_tail s' (10 * acc + digit_val c) (S n)
      else if Ascii.eqb c "_"%char then
        match s' with
        | String d s'' =>
            if isdigit d then digitpart_tail s'' (10 * acc + digit_val d) (S n)
            else (acc, n, s)
        | EmptyString => (acc, n, s)
        end
      else (acc, n, s)
  | EmptyString => (acc, n, s)
  end.

Definition digitpart (s : string) : option (Z * nat * string) :=
  match s with
  | String c s' =>
      if isdigit c then Some (digitpart_tail s' (digit_val c) 1%nat) else None
  | EmptyString => None
  end.

(** An optional sign: [(negative, rest)]. *)
Definition sign (s : string) : bool * string :=
  match s with
  | String c s' =>
      if Ascii.eqb c "-"%char then (true, s')
      else if Ascii.eqb c "+"%char then (false, s')
      else (false, s)
  | EmptyString => (false, s)
  end.

(** [int(s)] for a [str]: [None] stands for [ValueError]. *)
Definition of_string (s : string) : option Z :=
  let (neg, u) := sign (strip s) in
  match digitpart u with
  | Some (v, _, EmptyString) => Some (if neg then - v else v)
  | _ => None
  end.

End PyInt.

(* ===================================================================== *)
(** ** Exceptions                                                         *)
(* ===================================================================== *)

(** The exceptions the built-in conversions raise. *)
Inductive exn : Type := ValueError | TypeError | OverflowError.

Inductive result (A : Type) : Type :=
| Ok (a : A)
| Raise (e : exn).
Arguments Ok {A} a.
Arguments Raise {A} e.

Definition bind {A B : Type} (m : result A) (k : A -> result B) : result B :=
  match m with
  | Ok a => k a
  | Raise e => Raise e
  end.

Notation "x <- m ;; k" := (bind m (fun x => k))
  (at level 61, m at next level, right associativity).

(** [try: body except (ValueError, TypeError): handler]: any other
    exception propagates. *)
Definition try_except_value_type {A : Type} (body : result A) (handler : A) : result A :=
  match body with
  | Ok a => Ok a
  | Raise ValueError | Raise TypeError => Ok handler
  | Raise e => Raise e
  end.

(** [try: body except: pass], used as a test: did the body succeed? *)
Definition succeeds {A : Type} (body : result A) : bool :=
  match body with
  | Ok _ => true
  | Raise _ => false
  end.

(* ===================================================================== *)
(** ** Python floats (IEEE binary64)                                      *)
(* ===================================================================== *)

Module PyFloat.
Import PyStr PyInt.

Definition float : Type := spec_float.
Definition prec : Z := 53.
Definition emax : Z := 1024.

(** Round [m * 2^e] to the nearest binary64, ties to even. *)
Definition round (m e : Z) (szero : bool) : float :=
  binary_normalize prec emax m e szero.

Definition eqb (x y : float) : bool :=
  match x, y with
  | S754_zero a, S754_zero b => Bool.eqb a b
  | S754_infinity a, S754_infinity b => Bool.eqb a b
  | S754_nan, S754_nan => true
  | S754_finite a m e, S754_finite b n f =>
      Bool.eqb a b && Pos.eqb m n && Z.eqb e f
  | _, _ => false
  end.

Definition is_zero (x : float) : bool :=
  match x with S754_zero _ => true | _ => false end.

(** [float(n)] for an [int]: [OverflowError] when [n] is too large. *)
Definition of_Z (n : Z) : result float :=
  match round n 0 false with
  | S754_infinity _ => Raise OverflowError
  | x => Ok x
  end.

(** [int(x)] for a [float]: truncation towards zero; [ValueError] on NaN,
    [OverflowError] on an infinity. *)
Definition to_Z (x : float) : result Z :=
  match x with
  | S754_zero _ => Ok 0
  | S754_nan => Raise ValueError
  | S754_infinity _ => Raise OverflowError
  | S754_finite s m e =>
      let a := if 0 <=? e then Zpos m * 2 ^ e else Zpos m / 2 ^ (- e) in
      Ok (if s then - a else a)
  end.

(** The binary64 nearest to [m * 10^e] for [0 <= m] (what [strtod]
    returns).  For a negative [e] the quotient is computed with more
    than [prec + 2] bits and a sticky bit, so that the final rounding is
    the rounding of the exact value. *)
Definition of_decimal (neg : bool) (m e : Z) : float :=
  let sg (z : Z) := if neg then - z else z in
  if m =? 0 then S754_zero neg
  else if 0 <=? e then round (sg (m * 10 ^ e)) 0 neg
  else
    let d := 10 ^ (- e) in
    let k := Z.max 0 (Z.log2 d - Z.log2 m + 56) in
    let q := (m * 2 ^ k) / d in
    let sticky := if (m * 2 ^ k) mod d =? 0 then 0 else 1 in
    round (sg (2 * q + sticky)) (- k - 1) neg.

Definition starts_with_exp (s : string) : option string :=
  match s with
  | String c s' =>
      if Ascii.eqb c "e"%char || Ascii.eqb c "E"%char then Some s' else None
  | EmptyString => None
  end.

(** The exponent part and the end of the text: [Some e] when the rest of
    the text is empty or a well-formed exponent. *)
Definition exponent (s : string) : option Z :=
  match s with
  | EmptyString => Some 0
  | _ =>
      match starts_with_exp s with
      | Some r =>
          let (neg, u) := sign r in
          match digitpart u with
          | Some (v, _, EmptyString) => Some (if neg then - v else v)
          | _ => None
          end
      | None => None
      end
  end.

(** The unsigned decimal number of [float(s)]: [(mantissa, exponent)]. *)
Definition decimal (u : string) : option (Z * Z) :=
  let '(ip, r1) :=
    match digitpart u with
    | Some (v, _, r) => (Some v, r)
    | None => (None, u)
    end in
  let '(fp, r2) :=
    match r1 with
    | String c r =>
        if Ascii.eqb c dot then
          match digitpart r with
          | Some (v, n, r') => (Some (v, n), r')
          | None => (None, r)
          end
        else (None, r1)
    | EmptyString => (None, r1)
    end in
  let has_dot :=
    match r1 with String c _ => Ascii.eqb c dot | EmptyString => false end in
  match ip, fp, has_dot with
  | None, None, _ => None
  | _, _, _ =>
      let iv := match ip with Some v => v | None => 0 end in
      let '(fv, fn) := match fp with Some p => p | None => (0, 0%nat) end in
      match exponent r2 with
      | Some ex => Some (iv * 10 ^ Z.of_nat fn + fv, ex - Z.of_nat fn)
      | None => None
      end
  end.

(** [float(s)] for a [str]: [None] stands for [ValueError]. *)
Definition of_string (s : string) : option float :=
  let (neg, u) := sign (strip s) in
  let l := lower u in
  if String.eqb l "inf" || String.eqb l "infinity" then Some (S754_infinity neg)
  else if String.eqb l "nan" then Some S754_nan
  else
    match decimal u with
    | Some (m, e) => Some (of_decimal neg m e)
    | None => None
    end.

(** *** [repr]: the shortest decimal text that reads back as the float *)

(** A positive finite float [m * 2^e] as a fraction. *)
Definition fraction (m : positive) (e : Z) : Z * Z :=
  if 0 <=? e then (Zpos m * 2 ^ e, 1) else (Zpos m, 2 ^ (- e)).

(** [floor (num / den / 10^k)] *)
Definition scaled_floor (num den k : Z) : Z :=
  if 0 <=? k then num / (den * 10 ^ k) else (num * 10 ^ (- k)) / den.

(** Sign of [2 * num / den - c * 10^k]. *)
Definition compare_twice (num den c k : Z) : comparison :=
  if 0 <=? k then (2 * num ?= c * 10 ^ k * den)
  else (2 * num * 10 ^ (- k) ?= c * den).

(** The largest [E] with [10^E <= num / den], searched downwards. *)
Fixpoint dec_exp_from (fuel : nat) (num den E : Z) : Z :=
  match fuel with
  | O => E
  | S fuel' =>
      if 1 <=? scaled_floor num den E then E
      else dec_exp_from fuel' num den (E - 1)
  end.

Definition dec_exp (num den : Z) : Z := dec_exp_from 640 num den 308.

(** The [n]-digit decimals around [x]: the one that reads back as [x],
    the nearer one (ties to the even digit) when both do. *)
Definition candidate (x : float) (num den E n : Z) : option (Z * Z) :=
  let k := E - n + 1 in
  let lo := scaled_floor num den k in
  let hi := lo + 1 in
  let back c := eqb (of_decimal false c k) x in
  let nearest :=
    match compare_twice num den (lo + hi) k with
    | Lt => lo
    | Gt => hi
    | Eq => if Z.even lo then lo else hi
    end in
  match back lo, back hi with
  | true, true => Some (nearest, k)
  | true, false => Some (lo, k)
  | false, true => Some (hi, k)
  | false, false => None
  end.

Fixpoint shortest_from (fuel : nat) (x : float) (num den E n : Z) : Z * Z :=
  match fuel with
  | O => (scaled_floor num den (E - 16), E - 16)
  | S fuel' =>
      match candidate x num den E n with
      | Some r => r
      | None => shortest_from fuel' x num den E (n + 1)
      end
  end.

Fixpoint strip_zeros (s : string) : string :=
  match s with
  | String c s' =>
      match strip_zeros s' with
      | EmptyString => if Ascii.eqb c "0"%char then EmptyString else String c EmptyString
      | r => String c r
      end
  | EmptyString => EmptyString
  end.

(** The digits of the shortest representation and the position of the
    decimal point relative to their start. *)
Definition shortest (m : positive) (e : Z) : string * Z :=
  let (num, den) := fraction m e in
  let E := dec_exp num den in
  let (c, k) := shortest_from 17 (S754_finite false m e) num den E 1 in
  let ds := digits c in
  (strip_zeros ds, Z.of_nat (String.length ds) + k).

Definition zeros (n : Z) : string := repeat_char "0"%char (Z.to_nat n).

(** Layout of [repr]: exponent notation outside [1e-4 <= x < 1e16]. *)
Definition layout (ds : string) (decpt : Z) : string :=
  let nd := Z.of_nat (String.length ds) in
  if (decpt <=? -4) || (16 <? decpt) then
    let ex := decpt - 1 in
    let mant :=
      match ds with
      | String d EmptyString => ds
      | String d rest => String d (String dot rest)
      | EmptyString => ds
      end in
    let ed := digits (Z.abs ex) in
    let ed := if Z.abs ex <? 10 then String "0"%char ed else ed in
    mant ++ "e" ++ (if ex <? 0 then "-" else "+") ++ ed
  else if decpt <=? 0 then "0." ++ zeros (- decpt) ++ ds
  else if nd <=? decpt then ds ++ zeros (decpt - nd) ++ ".0"
  else
    substring 0 (Z.to_nat decpt) ds ++ "." ++
    substring (Z.to_nat decpt) (Z.to_nat (nd - decpt)) ds.

(** [repr(x)], which is also [str(x)]. *)
Definition repr (x : float) : string :=
  match x with
  | S754_nan => "nan"
  | S754_infinity s => if s then "-inf" else "inf"
  | S754_zero s => if s then "-0.0" else "0.0"
  | S754_finite s m e =>
      let (ds, decpt) := shortest m e in
      (if s then "-" else "") ++ layout ds decpt
  end.

End PyFloat.

(* ===================================================================== *)
(** ** Python values and dictionaries                                     *)
(* ===================================================================== *)

(** The values a cell can hold once read: [None], [bool], [int], [float]
    and [str].  (Any other object a workbook yields, such as a date, only
    enters the exporter through its text.) *)
Inductive value : Type :=
| VNone
| VBool (b : bool)
| VInt (n : Z)
| VFloat (x : PyFloat.float)
| VStr (s : string).

Module Py.

(** [str(v)] *)
Definition str (v : value) : string :=
  match v with
  | VNone => "None"
  | VBool b => if b then "True" else "False"
  | VInt n => PyInt.to_string n
  | VFloat x => PyFloat.repr x
  | VStr s => s
  end.

(** Truth value of [v] in a condition. *)
Definition truthy (v : value) : bool :=
  match v with
  | VNone => false
  | VBool b => b
  | VInt n => negb (n =? 0)
  | VFloat x => negb (PyFloat.is_zero x)
  | VStr s => negb (String.eqb s "")
  end.

Definition is_none (v : value) : bool :=
  match v with VNone => true | _ => false end.

(** [int(v)] *)
Definition int (v : value) : result Z :=
  match v with
  | VNone => Raise TypeError
  | VBool b => Ok (if b then 1 else 0)
  | VInt n => Ok n
  | VFloat x => PyFloat.to_Z x
  | VStr s =>
      match PyInt.of_string s with
      | Some n => Ok n
      | None => Raise ValueError
      end
  end.

(** [float(v)] *)
Definition float (v : value) : result PyFloat.float :=
  match v with
  | VNone => Raise TypeError
  | VBool b => PyFloat.of_Z (if b then 1 else 0)
  | VInt n => PyFloat.of_Z n
  | VFloat x => Ok x
  | VStr s =>
      match PyFloat.of_string s with
      | Some x => Ok x
      | None => Raise ValueError
      end
  end.

End Py.

(** A [dict] with [str] keys: pairs in insertion order. *)
Module Dict.
Section WithValues.
Context {V : Type}.

Definition t : Type := list (string * V).

(** [d.get(k)] *)
Fixpoint get (k : string) (d : t) : option V :=
  match d with
  | [] => None
  | (k', v) :: d' => if String.eqb k k' then Some v else get k d'
  end.

(** [d[k] = v]: an existing key keeps its place, a new one goes last. *)
Fixpoint set (k : string) (v : V) (d : t) : t :=
  match d with
  | [] => [(k, v)]
  | (k', v') :: d' =>
      if String.eqb k k' then (k, v) :: d' else (k', v') :: set k v d'
  end.

Definition keys (d : t) : list string := map fst d.
Definition values (d : t) : list V := map snd d.

(** The dictionary built by assigning the pairs of [l] in order. *)
Definition of_assignments (l : list (string * V)) : t :=
  fold_left (fun d kv => set (fst kv) (snd kv) d) l [].

End WithValues.
Arguments t V : clear implicits.
End Dict.

(* ===================================================================== *)
(** ** The exporter                                                       *)
(* ===================================================================== *)

(** The four C# field types the exporter names by ["int"], ["float"],
    ["bool"] and ["string"]. *)
Inductive csharp_type : Type := TInt | TFloat | TBool | TString.

Definition type_name (ty : csharp_type) : string :=
  match ty with
  | TInt => "int"
  | TFloat => "float"
  | TBool => "bool"
  | TString => "string"
  end.

Definition csharp_type_eqb (a b : csharp_type) : bool :=
  match a, b with
  | TInt, TInt | TFloat, TFloat | TBool, TBool | TString, TString => true
  | _, _ => false
  end.

(** [to_csharp_type(excel_type, value)] *)
Definition to_csharp_type (excel_type : string) (v : value) : csharp_type :=
  match v with
  | VNone => TString
  | VBool _ => TBool
  | VInt _ => TInt
  | VFloat _ => TFloat
  | VStr _ =>
      let value_str := PyStr.strip (Py.str v) in
      if String.eqb value_str "" then TString
      else if PyStr.mem (PyStr.lower value_str) ["true"; "false"] then TBool
      else if succeeds (Py.int (VStr value_str)) then TInt
      else if succeeds (Py.float (VStr value_str)) then TFloat
      else TString
  end.

(** *** Tables *)

(** A worksheet as the reader exposes it: [max_row], the width of row 1
    and the value of each cell (rows and columns count from 1; a cell
    that was never written holds [None]). *)
Record worksheet : Type := {
  max_row : nat;
  max_column : nat;
  cell_value : nat -> nat -> value
}.

(** A workbook: its sheets under their titles, in the order of
    [wb.sheetnames].  [None] below stands for a file that fails to load. *)
Definition workbook : Type := list (string * worksheet).

Record table_info : Type := {
  headers : list string;
  data : list (Dict.t value)
}.

(** [str(cell.value).strip() if cell.value else f"Column{cell.column}"] *)
Definition header_of (column : nat) (v : value) : string :=
  if Py.truthy v then PyStr.strip (Py.str v)
  else "Column" ++ PyInt.to_string (Z.of_nat column).

(** The header row: the cells of [ws[1]]. *)
Definition read_headers (ws : worksheet) : list string :=
  map (fun c => header_of c (cell_value ws 1%nat c)) (seq 1 (max_column ws)).

(** The value a data cell contributes to its row. *)
Definition read_value (v : value) : value :=
  match v with
  | VNone => VNone
  | VInt _ | VFloat _ => v
  | VBool _ => v
  | VStr _ => VStr (PyStr.strip (Py.str v))
  end.

(** [enumerate(l, start)] *)
Fixpoint enumerate {A : Type} (l : list A) (start : nat) : list (nat * A) :=
  match l with
  | [] => []
  | a :: l' => (start, a) :: enumerate l' (S start)
  end.

(** One data row: [row_data[header] = ...] for each header in turn. *)
Definition read_row (ws : worksheet) (hs : list string) (row_idx : nat) : Dict.t value :=
  fold_left
    (fun row_data ch =>
       Dict.set (snd ch) (read_value (cell_value ws row_idx (fst ch))) row_data)
    (enumerate hs 1) [].

(** [v is not None and str(v).strip() != ""] *)
Definition nonblank (v : value) : bool :=
  negb (Py.is_none v) && negb (String.eqb (PyStr.strip (Py.str v)) "").

(** [any(... for v in row_data.values())] *)
Definition row_has_content (row_data : Dict.t value) : bool :=
  existsb nonblank (Dict.values row_data).

Definition read_data_rows (ws : worksheet) (hs : list string) : list (Dict.t value) :=
  filter row_has_content (map (read_row ws hs) (seq 2 (max_row ws - 1))).

(** The body of the sheet loop of [parse_excel_file]: [None] when the
    sheet is skipped. *)
Definition parse_sheet (ws : worksheet) : option table_info :=
  if (max_row ws <? 2)%nat then None
  else
    let hs := read_headers ws in
    match read_data_rows ws hs with
    | [] => None
    | data_rows => Some {| headers := hs; data := data_rows |}
    end.

(** The [result] dictionary of [parse_excel_file] after the sheet loop. *)
Definition parse_sheets (wb : workbook) : Dict.t table_info :=
  fold_left
    (fun result sheet =>
       match parse_sheet (snd sheet) with
       | Some table => Dict.set (fst sheet) table result
       | None => result
       end)
    wb [].

(** [parse_excel_file(file_path)]: [None] for a file that cannot be loaded
    and for a workbook without a table. *)
Definition parse_excel_file (file : option workbook) : option (Dict.t table_info) :=
  match file with
  | None => None
  | Some wb =>
      match parse_sheets wb with
      | [] => None
      | result => Some result
      end
  end.

(** *** Column types *)

(** [row.get(header)] *)
Definition row_get (row : Dict.t value) (header : string) : value :=
  match Dict.get header row with
  | Some v => v
  | None => VNone
  end.

(** The promotion test on one value: [float(str(v))] succeeds and the
    text holds a ["."]. *)
Definition looks_fractional (check_value : value) : bool :=
  negb (Py.is_none check_value) &&
  succeeds (Py.float (VStr (Py.str check_value))) &&
  PyStr.contains_char PyStr.dot (Py.str check_value).

(** The inner loop: does some row promote the column from int to float? *)
Definition has_fractional (rows : list (Dict.t value)) (header : string) : bool :=
  existsb (fun check_row => looks_fractional (row_get check_row header)) rows.

(** [value is not None and str(value).strip()] *)
Definition nonempty (v : value) : bool := nonblank v.

(** The outer loop over the rows that remain, with all the rows at hand
    for the promotion test. *)
Fixpoint infer_from (all_rows rows : list (Dict.t value)) (header : string)
  : csharp_type :=
  match rows with
  | [] => TString
  | row :: rest =>
      let v := row_get row header in
      if nonempty v then
        match to_csharp_type header v with
        | TInt => if has_fractional all_rows header then TFloat else TInt
        | ty => ty
        end
      else infer_from all_rows rest header
  end.

(** The type inferred for a column (the same loop is written out in
    [generate_csharp_class] and in [main]). *)
Definition infer_type (rows : list (Dict.t value)) (header : string) : csharp_type :=
  infer_from rows rows header.

(** [field_types_map]: one assignment per header. *)
Definition field_types (hs : list string) (rows : list (Dict.t value))
  : Dict.t csharp_type :=
  fold_left (fun m header => Dict.set header (infer_type rows header) m) hs [].

(** [field_types_map.get(header, "string")] *)
Definition field_type (m : Dict.t csharp_type) (header : string) : csharp_type :=
  match Dict.get header m with
  | Some ty => ty
  | None => TString
  end.

(** *** Names *)

(** The words of a name: maximal runs of alphanumeric characters.
    [current] is the run being read. *)
Fixpoint split_words (name : string) (current : string) : list string :=
  match name with
  | EmptyString =>
      if String.eqb current "" then [] else [current]
  | String c rest =>
      if PyStr.isalnum c then split_words rest (current ++ String c EmptyString)
      else if String.eqb current "" then split_words rest ""
      else current :: split_words rest ""
  end.

(** [to_pascal_case(name)] *)
Definition to_pascal_case (name : string) : string :=
  let parts := split_words name "" in
  let parts := match parts with [] => [name] | _ => parts end in
  String.concat "" (map PyStr.capitalize parts).

(** [to_camel_case(name)] *)
Definition to_camel_case (name : string) : string :=
  match to_pascal_case name with
  | EmptyString => EmptyString
  | String c rest => String (PyStr.lower_char c) rest
  end.

(** *** Row conversion *)

(** The value written for an empty cell. *)
Definition zero_value (ty : csharp_type) : value :=
  match ty with
  | TInt => VInt 0
  | TFloat => VFloat (S754_zero false)
  | TBool => VBool false
  | TString => VStr ""
  end.

(** The value assigned to [converted_row[pascal_header]] for one item of a
    row (the body of the inner loop of [main]). *)
Definition convert_value (ty : csharp_type) (v : value) : result value :=
  match v with
  | VNone => Ok (zero_value ty)
  | _ =>
      match ty with
      | TInt =>
          try_except_value_type (n <- Py.int v ;; Ok (VInt n)) (VInt 0)
      | TFloat =>
          try_except_value_type (x <- Py.float v ;; Ok (VFloat x))
                                (VFloat (S754_zero false))
      | TBool =>
          match v with
          | VBool _ => Ok v
          | _ => Ok (VBool (PyStr.mem (PyStr.lower (Py.str v)) ["true"; "1"; "yes"]))
          end
      | TString => Ok (VStr (Py.str v))
      end
  end.

(** One converted row: the items of [row] in order, each assigned under
    its PascalCase name. *)
Fixpoint convert_items (types : Dict.t csharp_type) (items : list (string * value))
    (converted_row : Dict.t value) : result (Dict.t value) :=
  match items with
  | [] => Ok converted_row
  | (header, v) :: rest =>
      x <- convert_value (field_type types header) v ;;
      convert_items types rest (Dict.set (to_pascal_case header) x converted_row)
  end.

Definition convert_row (types : Dict.t csharp_type) (row : Dict.t value)
  : result (Dict.t value) :=
  convert_items types row [].

(** [converted_data]: the rows in order; the first exception ends the
    loop. *)
Fixpoint convert_rows (types : Dict.t csharp_type) (rows : list (Dict.t value))
  : result (list (Dict.t value)) :=
  match rows with
  | [] => Ok []
  | row :: rest =>
      r <- convert_row types row ;;
      rs <- convert_rows types rest ;;
      Ok (r :: rs)
  end.

Definition converted_data (table : table_info) : result (list (Dict.t value)) :=
  convert_rows (field_types (headers table) (data table)) (data table).

(** *** JSON text: [json.dumps(obj, ensure_ascii=False, indent=2)] *)

Module Json.
Import PyStr.

#[local] Unset Elimination Schemes.
Inductive t : Type :=
| Scalar (v : value)
| Arr (items : list t)
| Obj (fields : list (string * t)).
#[local] Set Elimination Schemes.

Definition quote : ascii := chr 34.
Definition backslash : ascii := chr 92.
Definition newline : ascii := chr 10.

Definition hex_digit (d : Z) : ascii :=
  if d <? 10 then chr (48 + d) else chr (87 + d).

(** The escape of one character of a string. *)
Definition escape_char (c : ascii) : string :=
  let esc (x : ascii) := String backslash (String x EmptyString) in
  if Ascii.eqb c quote then esc quote
  else if Ascii.eqb c backslash then esc backslash
  else if code c =? 8 then esc "b"%char
  else if code c =? 12 then esc "f"%char
  else if code c =? 10 then esc "n"%char
  else if code c =? 13 then esc "r"%char
  else if code c =? 9 then esc "t"%char
  else if code c <? 32 then
    String backslash
      ("u00" ++ String (hex_digit (code c / 16))
                 (String (hex_digit (code c mod 16)) EmptyString))
  else String c EmptyString.

Fixpoint escape (s : string) : string :=
  match s with
  | EmptyString => EmptyString
  | String c s' => escape_char c ++ escape s'
  end.

Definition encode_string (s : string) : string :=
  String quote (escape s) ++ String quote EmptyString.

Definition encode_float (x : PyFloat.float) : string :=
  match x with
  | S754_nan => "NaN"
  | S754_infinity s => if s then "-Infinity" else "Infinity"
  | _ => PyFloat.repr x
  end.

Definition encode_scalar (v : value) : string :=
  match v with
  | VNone => "null"
  | VBool b => if b then "true" else "false"
  | VInt n => PyInt.to_string n
  | VFloat x => encode_float x
  | VStr s => encode_string s
  end.

Definition newline_indent (level : nat) : string :=
  String newline (repeat_char " "%char (2 * level)).

(** The chunks of a non-empty container joined by [",\n" + indent]. *)
Definition bracket (open close : string) (level : nat) (chunks : list string) : string :=
  match chunks with
  | [] => open ++ close
  | _ =>
      open ++ newline_indent (S level)
      ++ String.concat ("," ++ newline_indent (S level)) chunks
      ++ newline_indent level ++ close
  end.

Fixpoint encode (level : nat) (j : t) : string :=
  match j with
  | Scalar v => encode_scalar v
  | Arr items => bracket "[" "]" level (map (encode (S level)) items)
  | Obj fields =>
      bracket "{" "}" level
        (map (fun kv => encode_string (fst kv) ++ ": " ++ encode (S level) (snd kv))
             fields)
  end.

Definition dumps (j : t) : string := encode 0 j.

Definition of_row (row : Dict.t value) : t :=
  Obj (map (fun kv => (fst kv, Scalar (snd kv))) row).

(** [{"items": converted_data}] *)
Definition document (rows : list (Dict.t value)) : t :=
  Obj [("items", Arr (map of_row rows))].

End Json.

(** The text written to [<table_key>.json]. *)
Definition json_str (table : table_info) : result string :=
  rows <- converted_data table ;;
  Ok (Json.dumps (Json.document rows)).

(** *** Generated C# text *)

Definition nl : string := String Json.newline EmptyString.

(** One line of the class body: [public <type> <PropertyName>;] *)
Definition field_line (types : Dict.t csharp_type) (header : string) : string :=
  "        public " ++ type_name (field_type types header) ++ " "
  ++ to_pascal_case header ++ ";" ++ nl.

(** [generate_csharp_class(table_name, headers, data_rows)] *)
Definition generate_csharp_class (table_name : string) (hs : list string)
    (data_rows : list (Dict.t value)) : string :=
  let class_name := to_pascal_case table_name in
  let types := field_types hs data_rows in
  "using System;" ++ nl ++ nl
  ++ "namespace ExcelImporter" ++ nl
  ++ "{" ++ nl
  ++ "    /// <summary>" ++ nl
  ++ "    /// " ++ table_name ++ "数据表" ++ nl
  ++ "    /// </summary>" ++ nl
  ++ "    [Serializable]" ++ nl
  ++ "    public class " ++ class_name ++ "Data" ++ nl
  ++ "    {" ++ nl
  ++ String.concat "" (map (field_line types) hs)
  ++ "    }" ++ nl
  ++ "}" ++ nl.

(** The public fields of the generated class, in declaration order. *)
Definition class_fields (hs : list string) (data_rows : list (Dict.t value))
  : list (string * csharp_type) :=
  let types := field_types hs data_rows in
  map (fun header => (to_pascal_case header, field_type types header)) hs.

(** [generate_array_wrapper_classes(tables)] *)
Definition generate_array_wrapper_classes (tables : Dict.t table_info) : string :=
  "using System;" ++ nl ++ nl
  ++ "namespace ExcelImporter" ++ nl
  ++ "{" ++ nl
  ++ String.concat ""
       (map (fun table_name =>
               let class_name := to_pascal_case table_name in
               nl ++ "    [Serializable]" ++ nl
               ++ "    public class " ++ class_name ++ "DataArray" ++ nl
               ++ "    {" ++ nl
               ++ "        public " ++ class_name ++ "Data[] items;" ++ nl
               ++ "    }" ++ nl)
            (Dict.keys tables))
  ++ "}" ++ nl.

(** *** The export run *)

(** What [main] writes.  The manager source is a fixed template
    instantiated once per table key, in the order of [all_tables]; it is
    recorded by those keys, and its run-time meaning is given in
    [Manager] below. *)
Inductive output : Type :=
| JsonFile (name : string) (text : string)
| ClassFile (name : string) (text : string)
| ManagerFile (table_keys : list string)
| ArrayFile (text : string).

(** The state of a run: the files written so far, [all_tables], and the
    exception that ended the run, if any. *)
Record run : Type := {
  written : list output;
  all_tables : Dict.t table_info;
  raised : option exn
}.

Definition start : run :=
  {| written := []; all_tables := []; raised := None |}.

(** [f"{xlsx_file.stem}_{sheet_name}" if len(tables) > 1 else xlsx_file.stem] *)
Definition table_key (stem : string) (tables : Dict.t table_info) (sheet_name : string)
  : string :=
  if (1 <? List.length tables)%nat then stem ++ "_" ++ sheet_name else stem.

(** The body of the sheet loop of [main] for one table. *)
Definition export_table (key : string) (table : table_info) (r : run) : run :=
  match raised r with
  | Some _ => r
  | None =>
      match json_str table with
      | Raise e =>
          {| written := written r; all_tables := all_tables r; raised := Some e |}
      | Ok text =>
          let class_file :=
            match data table with
            | [] => []
            | _ => [ClassFile (to_pascal_case key ++ "Data.cs")
                      (generate_csharp_class key (headers table) (data table))]
            end in
          {| written := written r ++ JsonFile (key ++ ".json") text :: class_file;
             all_tables := Dict.set key table (all_tables r);
             raised := None |}
      end
  end.

(** The tables of one file under their keys, in the order they are
    exported. *)
Definition keyed_tables (stem : string) (file : option workbook)
  : list (string * table_info) :=
  match parse_excel_file file with
  | None => []
  | Some tables =>
      map (fun st => (table_key stem tables (fst st), snd st)) tables
  end.

(** The body of the file loop of [main]. *)
Definition export_file (r : run) (file : string * option workbook) : run :=
  fold_left (fun r kt => export_table (fst kt) (snd kt) r)
            (keyed_tables (fst file) (snd file)) r.

(** [main()] on the workbooks found, each with the stem of its file
    name. *)
Definition main (xlsx_files : list (string * option workbook)) : run :=
  let r := fold_left export_file xlsx_files start in
  match raised r, all_tables r with
  | None, _ :: _ =>
      {| written := written r
                    ++ [ManagerFile (Dict.keys (all_tables r));
                        ArrayFile (generate_array_wrapper_classes (all_tables r))];
         all_tables := all_tables r;
         raised := None |}
  | _, _ => r
  end.

(* ===================================================================== *)
(** ** The generated manager at run time                                  *)
(* ===================================================================== *)

(** The C# that [generate_data_manager_code] emits for [Initialize] and
    [GetIdValue], embedded by its meaning.  An object of a generated
    record class is the list of its public instance fields, in declaration
    order, with their current values. *)
Module Manager.
Import PyStr.

Inductive cs_value : Type :=
| CsNull
| CsInt (n : Z)
| CsFloat (x : PyFloat.float)
| CsBool (b : bool)
| CsString (s : string).

Definition object : Type := list (string * cs_value).

(** [type.GetField(fieldName, FieldFlags)] followed by [GetValue(obj)] *)
Fixpoint get_field (fieldName : string) (obj : object) : option cs_value :=
  match obj with
  | [] => None
  | (name, v) :: rest =>
      if String.eqb fieldName name then Some v else get_field fieldName rest
  end.

(** [Dictionary<int, T>] *)
Definition dictionary : Type := list (Z * object).

Fixpoint dict_get (k : Z) (d : dictionary) : option object :=
  match d with
  | [] => None
  | (k', v) :: d' => if k =? k' then Some v else dict_get k d'
  end.

Fixpoint dict_set (k : Z) (v : object) (d : dictionary) : dictionary :=
  match d with
  | [] => [(k, v)]
  | (k', v') :: d' =>
      if k =? k' then (k, v) :: d' else (k', v') :: dict_set k v d'
  end.

(** [int.TryParse(s, out n)]: white space around an optionally signed
    run of digits, within the range of a 32-bit [int]. *)
Definition cs_isspace (c : ascii) : bool := between 9 13 c || (code c =? 32).

Fixpoint cs_ltrim (s : string) : string :=
  match s with
  | String c s' => if cs_isspace c then cs_ltrim s' else s
  | EmptyString => EmptyString
  end.

Fixpoint cs_rtrim (s : string) : string :=
  match s with
  | String c s' =>
      match cs_rtrim s' with
      | EmptyString => if cs_isspace c then EmptyString else String c EmptyString
      | r => String c r
      end
  | EmptyString => EmptyString
  end.

Fixpoint all_digits (s : string) (acc : Z) : option Z :=
  match s with
  | EmptyString => Some acc
  | String c s' =>
      if isdigit c then all_digits s' (10 * acc + PyInt.digit_val c) else None
  end.

Definition int_TryParse (s : string) : option Z :=
  let (neg, u) := PyInt.sign (cs_rtrim (cs_ltrim s)) in
  match u with
  | EmptyString => None
  | _ =>
      match all_digits u 0 with
      | Some v =>
          let n := if neg then - v else v in
          if (- 2 ^ 31 <=? n) && (n <? 2 ^ 31) then Some n else None
      | None => None
      end
  end.

Definition idFieldNames : list string :=
  ["Id"; "ID"; "id"; "iD"; "ID_"; "Id_"; "id_"].

Section Runtime.
(** [System.Single.ToString()], which the platform supplies. *)
Variable single_to_string : PyFloat.float -> string.

(** [value.ToString()] for a value that is not [null]. *)
Definition to_string (v : cs_value) : string :=
  match v with
  | CsNull => ""
  | CsInt n => PyInt.to_string n
  | CsFloat x => single_to_string x
  | CsBool b => if b then "True" else "False"
  | CsString s => s
  end.

(** The two tests made on the value of a candidate field. *)
Definition id_of_value (v : cs_value) : option Z :=
  let parsed :=
    match v with
    | CsNull => None
    | _ =>
        match int_TryParse (to_string v) with
        | Some parsedValue => if parsedValue =? 0 then None else Some parsedValue
        | None => None
        end
    end in
  match v with
  | CsInt intValue => if intValue =? 0 then parsed else Some intValue
  | _ => parsed
  end.

(** The first loop of [GetIdValue]: the usual names, in order. *)
Fixpoint by_name (names : list string) (obj : object) : option Z :=
  match names with
  | [] => None
  | fieldName :: rest =>
      match get_field fieldName obj with
      | Some v =>
          match id_of_value v with
          | Some n => Some n
          | None => by_name rest obj
          end
      | None => by_name rest obj
      end
  end.

(** [fieldName.Equals("Id", OrdinalIgnoreCase) ||
     fieldName.ToLower().Contains("id")] *)
Definition names_an_id (fieldName : string) : bool :=
  String.eqb (lower fieldName) "id" || contains "id" (lower fieldName).

(** The second loop of [GetIdValue]: every field, in order. *)
Fixpoint by_scan (fields : object) : option Z :=
  match fields with
  | [] => None
  | (fieldName, v) :: rest =>
      if names_an_id fieldName then
        match id_of_value v with
        | Some n => Some n
        | None => by_scan rest
        end
      else by_scan rest
  end.

(** [GetIdValue(obj)]; [None] is [null]. *)
Definition GetIdValue (obj : option object) : option Z :=
  match obj with
  | None => None
  | Some o =>
      match by_name idFieldNames o with
      | Some n => Some n
      | None => by_scan o
      end
  end.

(** The [foreach] of [Initialize] over the items of one table:
    the list and the dictionary after the item. *)
Definition load_item (state : list object * dictionary) (item : option object)
  : list object * dictionary :=
  let (list_, dict_) := state in
  match item with
  | Some o =>
      let list_ := (list_ ++ [o])%list in
      match GetIdValue item with
      | Some idValue =>
          if idValue =? 0 then (list_, dict_)
          else (list_, dict_set idValue o dict_)
      | None => (list_, dict_)
      end
  | None => state
  end.

Definition load_items (items : list (option object)) : list object * dictionary :=
  fold_left load_item items ([], []).

End Runtime.

(** An object of a generated class: one value per declared field, of the
    declared type ([string] fields may hold [null]). *)
Definition has_type (v : cs_value) (ty : csharp_type) : bool :=
  match v, ty with
  | CsInt _, TInt | CsFloat _, TFloat | CsBool _, TBool => true
  | CsString _, TString | CsNull, TString => true
  | _, _ => false
  end.

Fixpoint instance_of (fields : list (string * csharp_type)) (o : object) : bool :=
  match fields, o with
  | [], [] => true
  | (name, ty) :: fields', (name', v) :: o' =>
      String.eqb name name' && has_type v ty && instance_of fields' o'
  | _, _ => false
  end.

End Manager.

(* ===================================================================== *)
(** ** Notions used in the statements                                     *)
(* ===================================================================== *)

(** The rule order of the specification for one cell value, read off its
    text: native boolean, native integer, native float, the texts
    ["true"] and ["false"] in any case, a text that reads as an integer, a
    text that reads as a float, and text otherwise. *)
Definition cell_text (v : value) : string := PyStr.strip (Py.str v).

Definition infer_by_rules (v : value) : csharp_type :=
  match v with
  | VBool _ => TBool
  | VInt _ => TInt
  | VFloat _ => TFloat
  | _ =>
      if PyStr.mem (PyStr.lower (cell_text v)) ["true"; "false"] then TBool
      else
        match PyInt.of_string (Py.str v), PyFloat.of_string (Py.str v) with
        | Some _, _ => TInt
        | None, Some _ => TFloat
        | None, None => TString
        end
  end.

(** A cell without content: absent, or text that is only white space. *)
Definition blank_cell (v : value) : Prop :=
  v = VNone \/ exists s, v = VStr s /\ PyStr.strip s = "".

(** A sheet that holds at most a header row: every cell below row 1 is
    blank. *)
Definition header_only (ws : worksheet) : Prop :=
  forall r c : nat, (2 <= r <= max_row ws)%nat -> blank_cell (cell_value ws r c).

(** A populated sheet: at least two rows, and a data row that is kept. *)
Definition populated (ws : worksheet) : bool :=
  (2 <=? max_row ws)%nat &&
  match read_data_rows ws (read_headers ws) with [] => false | _ => true end.

(** Keys in order of first occurrence. *)
Definition add_key (ks : list string) (k : string) : list string :=
  if PyStr.mem k ks then ks else (ks ++ [k])%list.

Definition distinct (l : list string) : list string := fold_left add_key l [].

(** The field names of an emitted row, from the header row alone. *)
Definition emitted_fields (hs : list string) : list string :=
  distinct (map to_pascal_case (distinct hs)).

(** The item of a row that an emitted field comes from: the last item
    whose header has that PascalCase name. *)
Fixpoint source (row : Dict.t value) (field : string) : option (string * value) :=
  match row with
  | [] => None
  | (h, v) :: rest =>
      match source rest field with
      | Some item => Some item
      | None => if String.eqb field (to_pascal_case h) then Some (h, v) else None
      end
  end.

(** The column an emitted field comes from, from the header row alone. *)
Definition column_of (hs : list string) (field : string) : option string :=
  option_map fst (source (map (fun h => (h, VNone)) (distinct hs)) field).

(** The first value of a column that is neither absent nor blank. *)
Definition first_nonempty (rows : list (Dict.t value)) (header : string) : option value :=
  find nonempty (map (fun row => row_get row header) rows).

(** The type of a Python value as JSON sees it. *)
Definition value_type (v : value) : option csharp_type :=
  match v with
  | VNone => None
  | VBool _ => Some TBool
  | VInt _ => Some TInt
  | VFloat _ => Some TFloat
  | VStr _ => Some TString
  end.

(** The type [main] uses for the items of a column. *)
Definition column_type (table : table_info) (header : string) : csharp_type :=
  field_type (field_types (headers table) (data table)) header.

(** The last object of a list whose [Id] field holds the integer [n]. *)
Fixpoint last_with_id (n : Z) (items : list Manager.object) : option Manager.object :=
  match items with
  | [] => None
  | o :: rest =>
      match last_with_id n rest with
      | Some o' => Some o'
      | None =>
          match Manager.get_field "Id" o with
          | Some (Manager.CsInt m) => if m =? n then Some o else None
          | _ => None
          end
      end
  end.

(** A worksheet given by its rows of cells, for examples. *)
Definition sheet_of (cells : list (list value)) : worksheet :=
  {| max_row := List.length cells;
     max_column := fold_right (fun row n => Nat.max (List.length row) n) 0%nat cells;
     cell_value := fun r c => nth (c - 1) (nth (r - 1) cells []) VNone |}.

(** A text that does not start with white space. *)
Definition starts_clean (s : string) : Prop :=
  match s with
  | EmptyString => True
  | String c _ => PyStr.isspace c = false
  end.

(** The tables of a workbook, sheet by sheet. *)
Definition tables_of (wb : workbook) : list (string * table_info) :=
  flat_map (fun sheet =>
              match parse_sheet (snd sheet) with
              | Some table => [(fst sheet, table)]
              | None => []
              end) wb.

(** A small table with an empty cell in a column of each type, for
    examples. *)
Definition units_table : table_info :=
  {| headers := ["Id"; "Name"; "Speed"; "Alive"];
     data :=
       [ [("Id", VInt 1); ("Name", VStr "Veteran"); ("Speed", VStr "2.5");
          ("Alive", VBool true)];
         [("Id", VInt 2); ("Name", VNone); ("Speed", VNone); ("Alive", VNone)];
         [("Id", VNone); ("Name", VStr "Rookie"); ("Speed", VInt 3);
          ("Alive", VStr "Yes")];
         [("Id", VInt 4); ("Name", VStr "Scout"); ("Speed", VStr "fast");
          ("Alive", VStr "0")] ] |}.

(** A sheet that parses to [units_table]. *)
Definition units_sheet : worksheet :=
  sheet_of
    [ [VStr "Id"; VStr "Name"; VStr "Speed"; VStr "Alive"];
      [VInt 1; VStr " Veteran"; VStr "2.5"; VBool true];
      [VInt 2; VNone; VNone; VNone];
      [VNone; VNone; VStr "  "; VNone];
      [VNone; VStr "Rookie"; VInt 3; VStr "Yes"];
      [VInt 4; VStr "Scout"; VStr "fast"; VStr "0"] ].

(** The example of the specification: an integer cell [150] and a later
    cell [150.5] in the same column. *)
Definition health_sheet : worksheet :=
  sheet_of
    [ [VStr "Id"; VStr "Name"; VStr "MaxHealth"];
      [VInt 1; VStr "Veteran"; VInt 150];
      [VInt 2; VStr "Rookie"; VFloat (PyFloat.of_decimal false 1505 (-1))] ].


(** The table of a sheet that has one. *)
Definition table_of (ws : worksheet) : table_info :=
  match parse_sheet ws with
  | Some table => table
  | None => {| headers := []; data := [] |}
  end.

(** A float column with a later integer too large for a float. *)
Definition oversized_sheet : worksheet :=
  sheet_of
    [ [VStr "Id"; VStr "Hp"];
      [VInt 1; VFloat (PyFloat.of_decimal false 15 (-1))];
      [VInt 2; VInt (10 ^ 400)] ].

(** An integer column with a later infinite float. *)
Definition infinite_sheet : worksheet :=
  sheet_of
    [ [VStr "Id"; VStr "Hp"];
      [VInt 1; VInt 30];
      [VInt 2; VFloat (S754_infinity false)] ].

(** The shape of the objects of a table with header [["Id"; "Name"]] whose
    Id column is integer, and of a table with header [["Code"; "Name"]]. *)
Definition id_name_object (o : Manager.object) : Prop :=
  exists n v, o = [("Id", Manager.CsInt n); ("Name", v)].

Definition code_name_object (o : Manager.object) : Prop :=
  exists c v, o = [("Code", c); ("Name", v)].

(** A stand-in for [System.Single.ToString] in examples without float
    fields. *)
Definition no_single : PyFloat.float -> string := fun _ => "".

(** Two tables for the manager: one with an [Id] column, one row of
    which has an empty Id cell, and one keyed by a [Code]. *)
Definition id_sheet : worksheet :=
  sheet_of
    [ [VStr "Id"; VStr "Name"];
      [VInt 1; VStr "Veteran"];
      [VNone; VStr "Rookie"] ].

Definition code_sheet : worksheet :=
  sheet_of
    [ [VStr "Code"; VStr "Name"];
      [VInt 1; VStr "Veteran"];
      [VInt 2; VStr "Rookie"] ].

(** The objects that hold the rows emitted for [id_sheet] and for
    [code_sheet]. *)
Definition id_items : list Manager.object :=
  [ [("Id", Manager.CsInt 1); ("Name", Manager.CsString "Veteran")];
    [("Id", Manager.CsInt 0); ("Name", Manager.CsString "Rookie")] ].

Definition code_items : list Manager.object :=
  [ [("Code", Manager.CsInt 1); ("Name", Manager.CsString "Veteran")];
    [("Code", Manager.CsInt 2); ("Name", Manager.CsString "Rookie")] ].

(** The tables of a run under their keys, in the order [main] exports
    them. *)
Definition all_keyed (xlsx_files : list (string * option workbook))
  : list (string * table_info) :=
  flat_map (fun file => keyed_tables (fst file) (snd file)) xlsx_files.

(** The two files [main] writes for a table whose document can be built. *)
Definition files_of (job : string * table_info) : list output :=
  match json_str (snd job) with
  | Ok text =>
      [ JsonFile (fst job ++ ".json") text;
        ClassFile (to_pascal_case (fst job) ++ "Data.cs")
          (generate_csharp_class (fst job) (headers (snd job)) (data (snd job))) ]
  | Raise _ => []
  end.

(** A value whose conversion to the column type overflows. *)
Definition overflows (ty : csharp_type) (v : value) : Prop :=
  (ty = TInt /\ exists s, v = VFloat (S754_infinity s)) \/
  (ty = TFloat /\ exists n, v = VInt n /\ PyFloat.of_Z n = Raise OverflowError).

(** [all(p(c) for c in s)] and [any(p(c) for c in s)] *)
Fixpoint all_chars (p : ascii -> bool) (s : string) : bool :=
  match s with
  | EmptyString => true
  | String c s' => p c && all_chars p s'
  end.

Fixpoint any_char (p : ascii -> bool) (s : string) : bool :=
  match s with
  | EmptyString => false
  | String c s' => p c || any_char p s'
  end.

(** Reading back the body of a JSON string literal: the inverse of
    [Json.escape] (the escapes of the JSON grammar; [\u00XX] for the
    characters below 256). *)
Definition hex_value (c : ascii) : option Z :=
  if PyStr.isdigit c then Some (PyStr.code c - 48)
  else if PyStr.between 97 102 c then Some (PyStr.code c - 87)
  else if PyStr.between 65 70 c then Some (PyStr.code c - 55)
  else None.

Definition simple_escape (c : ascii) : option ascii :=
  if Ascii.eqb c Json.quote then Some Json.quote
  else if Ascii.eqb c Json.backslash then Some Json.backslash
  else if Ascii.eqb c "/"%char then Some "/"%char
  else if Ascii.eqb c "b"%char then Some (PyStr.chr 8)
  else if Ascii.eqb c "f"%char then Some (PyStr.chr 12)
  else if Ascii.eqb c "n"%char then Some (PyStr.chr 10)
  else if Ascii.eqb c "r"%char then Some (PyStr.chr 13)
  else if Ascii.eqb c "t"%char then Some (PyStr.chr 9)
  else None.

Fixpoint unescape (s : string) : option string :=
  match s with
  | EmptyString => Some EmptyString
  | String c rest =>
      if Ascii.eqb c Json.backslash then
        match rest with
        | String e rest' =>
            if Ascii.eqb e "u"%char then
              match rest' with
              | String a (String b (String h (String l rest''))) =>
                  match hex_value a, hex_value b, hex_value h, hex_value l with
                  | Some 0, Some 0, Some x, Some y =>
                      option_map (String (PyStr.chr (16 * x + y))) (unescape rest'')
                  | _, _, _, _ => None
                  end
              | _ => None
              end
            else
              match simple_escape e with
              | Some d => option_map (String d) (unescape rest')
              | None => None
              end
        | EmptyString => None
        end
      else if Ascii.eqb c Json.quote then None
      else option_map (String c) (unescape rest)
  end.

(** The items of an array that are not [null], and the test "this object
    has the id [k]". *)
Definition non_null (items : list (option Manager.object)) : list Manager.object :=
  flat_map (fun item => match item with Some o => [o] | None => [] end) items.

Definition has_id (single_to_string : PyFloat.float -> string) (k : Z)
    (o : Manager.object) : bool :=
  match Manager.GetIdValue single_to_string (Some o) with
  | Some n => n =? k
  | None => false
  end.

(** The number a run of decimal digits denotes, after the digits read so
    far. *)
Fixpoint digits_value (s : string) (acc : Z) : Z :=
  match s with
  | EmptyString => acc
  | String c s' => digits_value s' (10 * acc + PyInt.digit_val c)
  end.

(** A cell value whose text is certainly not blank: an integer, a
    boolean, or a text with a character that is not white space. *)
Definition plain_content (v : value) : Prop :=
  match v with
  | VInt _ | VBool _ => True
  | VStr s => PyStr.strip s <> ""
  | VNone | VFloat _ => False
  end.

(** A character of the ASCII range. *)
Definition is_ascii (c : ascii) : bool := PyStr.code c <? 128.




(** From here on [++] is the append of lists. *)
Local Open Scope list_scope.

(* ===================================================================== *)
(** ** Text lemmas                                                        *)
(* ===================================================================== *)

Lemma rstrip_idempotent (s : string) : PyStr.rstrip (PyStr.rstrip s) = PyStr.rstrip s.
Proof.
  induction s as [|c s IH]; simpl; [reflexivity|].
  destruct (PyStr.rstrip s) as [|d r] eqn:E.
  - destruct (PyStr.isspace c) eqn:Hc; simpl; [reflexivity|].
    now rewrite Hc.
  - change (PyStr.rstrip (String c (String d r))) with
      (match PyStr.rstrip (String d r) with
       | EmptyString =>
           if PyStr.isspace c then EmptyString else String c EmptyString
       | x => String c x
       end).
    now rewrite IH.
Qed.

Lemma lstrip_starts_clean (s : string) : starts_clean (PyStr.lstrip s).
Proof.
  induction s as [|c s IH]; simpl; [exact I|].
  destruct (PyStr.isspace c) eqn:Hc; [exact IH|exact Hc].
Qed.

Lemma lstrip_of_clean (s : string) : starts_clean s -> PyStr.lstrip s = s.
Proof.
  destruct s as [|c s]; simpl; [reflexivity|].
  now intros ->.
Qed.

Lemma rstrip_keeps_clean (s : string) : starts_clean s -> starts_clean (PyStr.rstrip s).
Proof.
  destruct s as [|c s]; simpl; [trivial|].
  intros Hc. destruct (PyStr.rstrip s); [rewrite Hc|]; exact Hc.
Qed.

Lemma strip_idempotent (s : string) : PyStr.strip (PyStr.strip s) = PyStr.strip s.
Proof.
  unfold PyStr.strip.
  rewrite (lstrip_of_clean (PyStr.rstrip (PyStr.lstrip s))).
  - apply rstrip_idempotent.
  - apply rstrip_keeps_clean, lstrip_starts_clean.
Qed.

Lemma int_of_stripped (s : string) :
  PyInt.of_string (PyStr.strip s) = PyInt.of_string s.
Proof. unfold PyInt.of_string. now rewrite strip_idempotent. Qed.

Lemma float_of_stripped (s : string) :
  PyFloat.of_string (PyStr.strip s) = PyFloat.of_string s.
Proof. unfold PyFloat.of_string. now rewrite strip_idempotent. Qed.

Lemma int_of_blank (s : string) : PyStr.strip s = "" -> PyInt.of_string s = None.
Proof. unfold PyInt.of_string. now intros ->. Qed.

Lemma float_of_blank (s : string) : PyStr.strip s = "" -> PyFloat.of_string s = None.
Proof. unfold PyFloat.of_string. now intros ->. Qed.

(* ===================================================================== *)
(** ** Type inference on one value                                        *)
(* ===================================================================== *)

(** C4. For every cell value, [to_csharp_type] returns what the rule order
    of the specification gives: native boolean, then native integer, then
    native float, then the texts "true"/"false" in any case, then a text
    that parses as an integer, then a text that parses as a float, and
    text otherwise.  The early exits of the code for an absent value and
    for an empty text agree with the fallback of the rules. *)
Theorem to_csharp_type_follows_rules (excel_type : string) (v : value) :
  to_csharp_type excel_type v = infer_by_rules v.
Proof.
  destruct v as [| b | n | x | s]; try reflexivity.
  unfold to_csharp_type, infer_by_rules, cell_text.
  change (Py.str (VStr s)) with s.
  destruct (String.eqb (PyStr.strip s) "") eqn:Hempty.
  - apply String.eqb_eq in Hempty.
    rewrite Hempty, (int_of_blank s Hempty), (float_of_blank s Hempty).
    reflexivity.
  - destruct (PyStr.mem (PyStr.lower (PyStr.strip s)) ["true"; "false"]);
      [reflexivity|].
    unfold Py.int, Py.float.
    rewrite int_of_stripped, float_of_stripped.
    destruct (PyInt.of_string s); [reflexivity|].
    destruct (PyFloat.of_string s); reflexivity.
Qed.

(* ===================================================================== *)
(** ** Dictionaries                                                       *)
(* ===================================================================== *)

Section DictFacts.
Context {V : Type}.
Implicit Types (d : Dict.t V) (k : string) (v : V).

Lemma mem_In k (ks : list string) : PyStr.mem k ks = true <-> In k ks.
Proof.
  unfold PyStr.mem. rewrite existsb_exists. split.
  - intros [x [Hx Heq]]. apply String.eqb_eq in Heq. now subst.
  - intros H. exists k. split; [exact H|apply String.eqb_refl].
Qed.

Lemma get_set_same k v d : Dict.get k (Dict.set k v d) = Some v.
Proof.
  induction d as [|[k' v'] d IH]; simpl.
  - now rewrite String.eqb_refl.
  - destruct (String.eqb k k') eqn:E; simpl; rewrite ?String.eqb_refl, ?E; auto.
Qed.

Lemma get_set_other k k' v d :
  String.eqb k' k = false -> Dict.get k' (Dict.set k v d) = Dict.get k' d.
Proof.
  intros Hne. induction d as [|[k0 v0] d IH]; simpl.
  - now rewrite Hne.
  - destruct (String.eqb k k0) eqn:E; simpl.
    + apply String.eqb_eq in E. subst k0. now rewrite Hne.
    + now rewrite IH.
Qed.

Lemma get_set k k' v d :
  Dict.get k' (Dict.set k v d) = if String.eqb k' k then Some v else Dict.get k' d.
Proof.
  destruct (String.eqb k' k) eqn:E.
  - apply String.eqb_eq in E. subst. apply get_set_same.
  - now apply get_set_other.
Qed.

Lemma keys_set k v d : Dict.keys (Dict.set k v d) = add_key (Dict.keys d) k.
Proof.
  unfold add_key, Dict.keys.
  induction d as [|[k' v'] d IH]; simpl; [reflexivity|].
  destruct (String.eqb k k') eqn:E; simpl.
  - apply String.eqb_eq in E. now subst.
  - rewrite IH. unfold PyStr.mem.
    destruct (existsb (String.eqb k) (map fst d)); reflexivity.
Qed.

Lemma set_fresh k v d : ~ In k (Dict.keys d) -> Dict.set k v d = (d ++ [(k, v)])%list.
Proof.
  induction d as [|[k' v'] d IH]; simpl; intros Hk; [reflexivity|].
  destruct (String.eqb k k') eqn:E.
  - apply String.eqb_eq in E. subst. tauto.
  - rewrite IH; tauto.
Qed.

Lemma values_set (P : V -> Prop) k v d :
  P v -> Forall P (Dict.values d) -> Forall P (Dict.values (Dict.set k v d)).
Proof.
  intros Hv. unfold Dict.values.
  induction d as [|[k' v'] d IH]; simpl; intros Hd.
  - auto.
  - inversion Hd; subst. destruct (String.eqb k k'); simpl; auto.
Qed.

Lemma get_In k v d : Dict.get k d = Some v -> In (k, v) d.
Proof.
  induction d as [|[k' v'] d IH]; simpl; [discriminate|].
  destruct (String.eqb k k') eqn:E.
  - apply String.eqb_eq in E. intros [= ->]. subst. now left.
  - intros H. right. auto.
Qed.

End DictFacts.

(* ===================================================================== *)
(** ** Parsing a workbook                                                 *)
(* ===================================================================== *)

(** Only an absent cell is read as [None]. *)
Lemma read_value_none (v : value) : read_value v = VNone <-> v = VNone.
Proof. destruct v; simpl; split; congruence. Qed.

Lemma blank_cell_read (v : value) : blank_cell v -> nonblank (read_value v) = false.
Proof.
  intros [-> | [s [-> Hs]]]; [reflexivity|].
  unfold read_value, nonblank. change (Py.str (VStr s)) with s.
  rewrite Hs. reflexivity.
Qed.

Lemma read_row_values (P : value -> Prop) (ws : worksheet) (r : nat) :
  (forall c, P (read_value (cell_value ws r c))) ->
  forall hs, Forall P (Dict.values (read_row ws hs r)).
Proof.
  intros HP hs. unfold read_row.
  generalize (@nil (string * value)) (Forall_nil P : Forall P (Dict.values [])).
  generalize 1%nat.
  induction hs as [|h hs IH]; intros start acc Hacc; simpl; [exact Hacc|].
  apply IH. now apply values_set.
Qed.

Lemma header_only_row (ws : worksheet) (hs : list string) (r : nat) :
  header_only ws -> (2 <= r <= max_row ws)%nat ->
  row_has_content (read_row ws hs r) = false.
Proof.
  intros Hws Hr. unfold row_has_content.
  apply not_true_is_false. rewrite existsb_exists. intros [v [Hin Hv]].
  pose proof (read_row_values (fun v => nonblank v = false) ws r) as H.
  specialize (H (fun c => blank_cell_read _ (Hws r c Hr)) hs).
  rewrite Forall_forall in H. rewrite (H v Hin) in Hv. discriminate.
Qed.

Lemma header_only_no_rows (ws : worksheet) (hs : list string) :
  header_only ws -> read_data_rows ws hs = [].
Proof.
  intros Hws. unfold read_data_rows.
  assert (H : forall r, In r (seq 2 (max_row ws - 1)) -> (2 <= r <= max_row ws)%nat)
    by (intros r Hr; apply in_seq in Hr; lia).
  induction (seq 2 (max_row ws - 1)) as [|r l IH]; simpl; [reflexivity|].
  rewrite (header_only_row ws hs r Hws (H r (or_introl eq_refl))).
  apply IH. intros r' Hr'. apply H. now right.
Qed.

Lemma header_only_no_table (ws : worksheet) : header_only ws -> parse_sheet ws = None.
Proof.
  intros Hws. unfold parse_sheet.
  destruct (max_row ws <? 2)%nat; [reflexivity|].
  now rewrite header_only_no_rows.
Qed.

Lemma parse_sheets_skip (before after : workbook) (name : string) (ws : worksheet) :
  parse_sheet ws = None ->
  parse_sheets (before ++ (name, ws) :: after) = parse_sheets (before ++ after).
Proof.
  intros Hws. unfold parse_sheets.
  rewrite !fold_left_app. simpl. now rewrite Hws.
Qed.

Lemma header_only_not_populated (ws : worksheet) : header_only ws -> populated ws = false.
Proof.
  intros Hws. unfold populated. rewrite header_only_no_rows by exact Hws.
  apply andb_false_r.
Qed.

Lemma unpopulated_no_table (ws : worksheet) : populated ws = false -> parse_sheet ws = None.
Proof.
  intros H. unfold parse_sheet. unfold populated in H.
  rewrite Nat.leb_antisym in H.
  destruct (max_row ws <? 2)%nat; [reflexivity|]. simpl in H.
  destruct (read_data_rows ws (read_headers ws)); [reflexivity|discriminate].
Qed.

(** C5. A sheet that holds a header row and no data row once the blank
    rows are dropped (it is not [populated]; so is every sheet whose cells
    below row 1 are absent or white space, [header_only_not_populated])
    yields no table, and the run writes exactly what it writes for the
    workbook without that sheet: no document and no record type come from
    it. *)
Theorem header_only_sheet_contributes_nothing
    (ws : worksheet) (name stem : string) (before after : workbook)
    (earlier later : list (string * option workbook)) :
  populated ws = false ->
  parse_sheet ws = None /\
  parse_sheets (before ++ (name, ws) :: after) = parse_sheets (before ++ after) /\
  main (earlier ++ (stem, Some (before ++ (name, ws) :: after)) :: later)
  = main (earlier ++ (stem, Some (before ++ after)) :: later).
Proof.
  intros Hws.
  pose proof (unpopulated_no_table ws Hws) as Hnone.
  pose proof (parse_sheets_skip before after name ws Hnone) as Hskip.
  repeat split; try assumption.
  assert (Hfile : forall r,
             export_file r (stem, Some (before ++ (name, ws) :: after))
             = export_file r (stem, Some (before ++ after))).
  { intros r. unfold export_file, keyed_tables, parse_excel_file.
    cbn [fst snd]. now rewrite Hskip. }
  unfold main. rewrite !fold_left_app. cbn [fold_left].
  now rewrite Hfile.
Qed.

(** *** Table keys *)

Lemma parse_sheet_populated (ws : worksheet) :
  parse_sheet ws =
  if populated ws
  then Some {| headers := read_headers ws;
               data := read_data_rows ws (read_headers ws) |}
  else None.
Proof.
  unfold parse_sheet, populated.
  rewrite Nat.leb_antisym.
  destruct (max_row ws <? 2)%nat; simpl; [reflexivity|].
  destruct (read_data_rows ws (read_headers ws)); reflexivity.
Qed.

Lemma tables_of_keys (wb : workbook) :
  map fst (tables_of wb) = map fst (filter (fun sheet => populated (snd sheet)) wb).
Proof.
  induction wb as [|[name ws] wb IH]; simpl; [reflexivity|].
  rewrite parse_sheet_populated.
  destruct (populated ws); simpl; now rewrite IH.
Qed.

Lemma tables_of_names (wb : workbook) (k : string) :
  In k (map fst (tables_of wb)) -> In k (map fst wb).
Proof.
  rewrite tables_of_keys. rewrite !in_map_iff.
  intros [s [Hs Hin]]. apply filter_In in Hin. exists s. tauto.
Qed.

Lemma parse_sheets_from (wb : workbook) (acc : Dict.t table_info) :
  NoDup (map fst wb) ->
  (forall k, In k (Dict.keys acc) -> ~ In k (map fst wb)) ->
  fold_left
    (fun result sheet =>
       match parse_sheet (snd sheet) with
       | Some table => Dict.set (fst sheet) table result
       | None => result
       end) wb acc
  = acc ++ tables_of wb.
Proof.
  revert acc. induction wb as [|[name ws] wb IH]; intros acc Hnd Hacc; simpl.
  - now rewrite app_nil_r.
  - simpl in Hnd. inversion Hnd as [|? ? Hname Hrest]; subst.
    destruct (parse_sheet ws) as [table|] eqn:E.
    + rewrite set_fresh.
      * rewrite IH; [now rewrite <- app_assoc| exact Hrest |].
        intros k Hk. unfold Dict.keys in Hk. rewrite map_app in Hk.
        apply in_app_or in Hk. destruct Hk as [Hk|[<-|[]]]; [|exact Hname].
        intros Hin. apply (Hacc k Hk). now right.
      * intros Hin. apply (Hacc name Hin). now left.
    + apply IH; [exact Hrest|].
      intros k Hk Hin. apply (Hacc k Hk). now right.
Qed.

Lemma parse_sheets_tables (wb : workbook) :
  NoDup (map fst wb) -> parse_sheets wb = tables_of wb.
Proof.
  intros Hnd. unfold parse_sheets.
  now rewrite parse_sheets_from by (auto; intros k []).
Qed.

Lemma keyed_tables_names (stem : string) (wb : workbook) :
  NoDup (map fst wb) ->
  map fst (keyed_tables stem (Some wb))
  = map (fun sheet => table_key stem (tables_of wb) (fst sheet)) (tables_of wb).
Proof.
  intros Hnd. unfold keyed_tables, parse_excel_file.
  rewrite (parse_sheets_tables wb Hnd).
  destruct (tables_of wb) as [|p l]; [reflexivity|].
  now rewrite map_map.
Qed.

(** C8. For a workbook (sheet titles are distinct), the tables exported
    from it are keyed ["<stem>_<sheet>"], one per populated sheet in sheet
    order, when more than one sheet is populated, and the single table is
    keyed by the stem alone when exactly one sheet is populated. *)
Theorem table_keys_by_populated_sheets (stem : string) (wb : workbook) :
  NoDup (map fst wb) ->
  let sheets := filter (fun sheet => populated (snd sheet)) wb in
  (1 < List.length sheets ->
   map fst (keyed_tables stem (Some wb))
   = map (fun sheet => (stem ++ "_" ++ fst sheet)%string) sheets)%nat /\
  (List.length sheets = 1%nat ->
   map fst (keyed_tables stem (Some wb)) = [stem]).
Proof.
  intros Hnd sheets.
  pose proof (tables_of_keys wb) as Hkeys. fold sheets in Hkeys.
  assert (Hlen : List.length (tables_of wb) = List.length sheets).
  { rewrite <- (length_map fst (tables_of wb)), Hkeys. apply length_map. }
  rewrite (keyed_tables_names stem wb Hnd).
  unfold table_key. rewrite Hlen. split; intros Hn.
  - apply Nat.ltb_lt in Hn. rewrite Hn.
    rewrite <- (map_map fst (fun name => (stem ++ "_" ++ name)%string)).
    rewrite Hkeys. now rewrite map_map.
  - rewrite Hn. simpl.
    destruct (tables_of wb) as [|p [|q l]]; simpl in Hlen; try lia.
    reflexivity.
Qed.

(** A sheet with a header row and one row of blanks, inside a workbook
    with a populated sheet. *)
Lemma header_only_sheet_witness :
  let blank := sheet_of [[VStr "Id"; VStr "Name"]; [VNone; VStr "  "]] in
  let units := sheet_of [[VStr "Id"; VStr "Name"]; [VInt 1; VStr "Veteran"]] in
  populated blank = false /\
  parse_sheet blank = None /\
  parse_sheets ([("Units", units)] ++ [("Notes", blank)])
  = parse_sheets ([("Units", units)] ++ []) /\
  main ([] ++ [("Game", Some ([("Units", units)] ++ [("Notes", blank)]))])
  = main ([] ++ [("Game", Some ([("Units", units)] ++ []))]).
Proof.
  intros blank units.
  assert (H : populated blank = false) by (vm_compute; reflexivity).
  split; [exact H|].
  exact (header_only_sheet_contributes_nothing
           blank "Notes" "Game" [("Units", units)] [] [] [] H).
Defined.

(** A workbook with two populated sheets and one that is not. *)
Lemma table_keys_witness :
  let heroes := sheet_of [[VStr "Id"; VStr "Name"]; [VInt 1; VStr "Veteran"]] in
  let empty := sheet_of [[VStr "Id"; VStr "Name"]] in
  let foes := sheet_of [[VStr "Id"; VStr "Hp"]; [VInt 7; VInt 30]] in
  let wb := [("Heroes", heroes); ("Empty", empty); ("Foes", foes)] in
  NoDup (map fst wb) /\
  map fst (keyed_tables "Units" (Some wb)) = ["Units_Heroes"; "Units_Foes"] /\
  map fst (keyed_tables "Units" (Some [("Heroes", heroes); ("Empty", empty)]))
  = ["Units"].
Proof.
  intros heroes empty foes wb.
  assert (Hnd : NoDup (map fst wb)).
  { simpl. repeat constructor; simpl; intuition discriminate. }
  assert (Hnd' : NoDup (map fst [("Heroes", heroes); ("Empty", empty)])).
  { simpl. repeat constructor; simpl; intuition discriminate. }
  split; [exact Hnd|]. split.
  - apply (proj1 (table_keys_by_populated_sheets "Units" wb Hnd)).
    vm_compute. lia.
  - apply (proj2 (table_keys_by_populated_sheets "Units" _ Hnd')).
    vm_compute. reflexivity.
Defined.

(* ===================================================================== *)
(** ** Converting rows                                                    *)
(* ===================================================================== *)

(** Every field of a converted row is the conversion of its source item. *)
Lemma convert_items_get (types : Dict.t csharp_type) (items : list (string * value))
    (field : string) :
  forall d d', convert_items types items d = Ok d' ->
  match source items field with
  | Some (h, v) =>
      exists x, convert_value (field_type types h) v = Ok x /\
                Dict.get field d' = Some x
  | None => Dict.get field d' = Dict.get field d
  end.
Proof.
  induction items as [|[h v] rest IH]; intros d d' H; simpl in *.
  - now injection H as ->.
  - destruct (convert_value (field_type types h) v) as [x|e] eqn:Hx;
      simpl in H; [|discriminate].
    specialize (IH _ _ H).
    destruct (source rest field) as [[h' v']|]; [exact IH|].
    rewrite get_set in IH.
    destruct (String.eqb field (to_pascal_case h)); [|exact IH].
    exists x. now split.
Qed.


Lemma convert_rows_each (types : Dict.t csharp_type) (rows : list (Dict.t value)) :
  forall converted, convert_rows types rows = Ok converted ->
  Forall2 (fun row emitted => convert_row types row = Ok emitted) rows converted.
Proof.
  induction rows as [|row rows IH]; intros converted H; simpl in H.
  - injection H as <-. constructor.
  - destruct (convert_row types row) as [r|] eqn:Hr; simpl in H; [|discriminate].
    destruct (convert_rows types rows) as [rs|]; simpl in H; [|discriminate].
    injection H as <-. constructor; auto.
Qed.


Lemma Forall2_In_r {A B : Type} (P : A -> B -> Prop) (l : list A) (l' : list B) (b : B) :
  Forall2 P l l' -> In b l' -> exists a, In a l /\ P a b.
Proof.
  intros H. induction H as [|a b' l l' Hab _ IH]; simpl; [tauto|].
  intros [<-|Hb].
  - exists a. auto.
  - destruct (IH Hb) as [a' [Ha' HP]]. exists a'. auto.
Qed.



(** The document of [units_table]. *)
Example units_table_document :
  converted_data units_table
  = Ok [ [("Id", VInt 1); ("Name", VStr "Veteran");
          ("Speed", VFloat (PyFloat.of_decimal false 25 (-1))); ("Alive", VBool true)];
         [("Id", VInt 2); ("Name", VStr ""); ("Speed", VFloat (S754_zero false));
          ("Alive", VBool false)];
         [("Id", VInt 0); ("Name", VStr "Rookie");
          ("Speed", VFloat (PyFloat.of_decimal false 3 0)); ("Alive", VBool true)];
         [("Id", VInt 4); ("Name", VStr "Scout"); ("Speed", VFloat (S754_zero false));
          ("Alive", VBool false)] ].
Proof. vm_compute. reflexivity. Qed.





(* ===================================================================== *)
(** ** Field names and column types of a parsed table                     *)
(* ===================================================================== *)

Lemma add_key_In (ks : list string) (k k' : string) :
  In k' (add_key ks k) <-> In k' ks \/ k' = k.
Proof.
  unfold add_key. destruct (PyStr.mem k ks) eqn:E.
  - apply mem_In in E. split; [tauto|]. intros [H| ->]; assumption.
  - rewrite in_app_iff. simpl. intuition.
Qed.

Lemma fold_add_key_In (l ks : list string) (k : string) :
  In k (fold_left add_key l ks) <-> In k ks \/ In k l.
Proof.
  revert ks. induction l as [|a l IH]; intros ks; simpl; [tauto|].
  rewrite IH, add_key_In. intuition.
Qed.

Lemma distinct_In (l : list string) (k : string) : In k (distinct l) <-> In k l.
Proof. unfold distinct. rewrite fold_add_key_In. simpl. tauto. Qed.

Lemma read_row_keys (ws : worksheet) (hs : list string) (r : nat) :
  Dict.keys (read_row ws hs r) = distinct hs.
Proof.
  unfold read_row, distinct.
  change (@nil string) with (Dict.keys (@nil (string * value))).
  generalize (@nil (string * value)). generalize 1%nat.
  induction hs as [|h hs IH]; intros start acc; simpl; [reflexivity|].
  rewrite IH, keys_set. reflexivity.
Qed.

Lemma parsed_row_keys (ws : worksheet) (table : table_info) (row : Dict.t value) :
  parse_sheet ws = Some table -> In row (data table) ->
  Dict.keys row = distinct (headers table).
Proof.
  rewrite parse_sheet_populated.
  destruct (populated ws); [|discriminate].
  intros [= <-]. simpl. unfold read_data_rows.
  intros Hin. apply filter_In in Hin. destruct Hin as [Hin _].
  apply in_map_iff in Hin. destruct Hin as [r [<- _]].
  apply read_row_keys.
Qed.

Lemma convert_items_keys (types : Dict.t csharp_type) (items : list (string * value)) :
  forall d d', convert_items types items d = Ok d' ->
  Dict.keys d' = fold_left add_key (map to_pascal_case (Dict.keys items)) (Dict.keys d).
Proof.
  induction items as [|[h v] rest IH]; intros d d' H; simpl in *.
  - now injection H as ->.
  - destruct (convert_value (field_type types h) v) as [x|e]; simpl in H;
      [|discriminate].
    rewrite (IH _ _ H), keys_set. reflexivity.
Qed.

Lemma source_keys (row : Dict.t value) (field : string) :
  option_map fst (source row field)
  = option_map fst (source (map (fun h => (h, VNone)) (Dict.keys row)) field).
Proof.
  induction row as [|[h v] rest IH]; simpl; [reflexivity|].
  destruct (source rest field) as [[h1 v1]|];
    destruct (source (map (fun h => (h, VNone)) (Dict.keys rest)) field) as [[h2 v2]|];
    simpl in *; try congruence.
  destruct (String.eqb field (to_pascal_case h)); reflexivity.
Qed.

Lemma source_In (row : Dict.t value) (field h : string) (v : value) :
  source row field = Some (h, v) -> In (h, v) row /\ field = to_pascal_case h.
Proof.
  induction row as [|[h' v'] rest IH]; simpl; [discriminate|].
  destruct (source rest field) as [item|].
  - intros [= ->]. destruct (IH eq_refl). auto.
  - destruct (String.eqb field (to_pascal_case h')) eqn:E; [|discriminate].
    intros [= -> ->]. apply String.eqb_eq in E. auto.
Qed.

Lemma field_types_from (rows : list (Dict.t value)) (hs : list string) (h : string) :
  forall m,
    In h hs \/ Dict.get h m = Some (infer_type rows h) ->
    Dict.get h (fold_left (fun m header => Dict.set header (infer_type rows header) m) hs m)
    = Some (infer_type rows h).
Proof.
  induction hs as [|a hs IH]; intros m H; simpl.
  - destruct H as [[]|H]. exact H.
  - apply IH. rewrite get_set.
    destruct (String.eqb h a) eqn:E.
    + apply String.eqb_eq in E. subst. now right.
    + destruct H as [[->|H]|H]; auto. now rewrite String.eqb_refl in E.
Qed.

(** For a header of the table, the type [main] uses is the inferred
    one. *)
Lemma column_type_inferred (table : table_info) (h : string) :
  In h (headers table) -> column_type table h = infer_type (data table) h.
Proof.
  intros Hin. unfold column_type, field_type, field_types.
  now rewrite field_types_from by (now left).
Qed.

Lemma try_except_cases {A : Type} (body : result A) (handler x : A) :
  try_except_value_type body handler = Ok x -> body = Ok x \/ x = handler.
Proof.
  destruct body as [a|[| |]]; simpl; intros [= <-]; auto.
Qed.

Lemma bind_Ok {A B : Type} (m : result A) (k : A -> result B) (b : B) :
  bind m k = Ok b -> exists a, m = Ok a /\ k a = Ok b.
Proof. destruct m as [a|e]; simpl; [eauto|discriminate]. Qed.

Lemma convert_value_type (ty : csharp_type) (v x : value) :
  convert_value ty v = Ok x -> value_type x = Some ty.
Proof.
  destruct v as [| b | n | y | s];
    try (destruct ty; simpl; intros [= <-]; reflexivity);
    destruct ty; cbn [convert_value];
    try (intros [= <-]; reflexivity);
    intros H; apply try_except_cases in H;
    destruct H as [H| ->]; try reflexivity;
    apply bind_Ok in H; destruct H as [a [_ [= <-]]]; reflexivity.
Qed.

(** C9. In every document emitted for a parsed table, each field comes
    from one column, fixed by the header row, and the value of that field
    in every row has the JSON type of the column's inferred type:
    integers in an int column, floats in a float column, booleans in a
    bool column and strings in a text column. *)
Theorem emitted_columns_homogeneous (ws : worksheet) (table : table_info)
    (converted : list (Dict.t value)) :
  parse_sheet ws = Some table ->
  converted_data table = Ok converted ->
  forall emitted field x,
    In emitted converted -> Dict.get field emitted = Some x ->
    exists header,
      column_of (headers table) field = Some header /\
      In header (headers table) /\
      value_type x = Some (infer_type (data table) header).
Proof.
  intros Hparse Hconv emitted field x Hin Hget.
  apply convert_rows_each in Hconv.
  destruct (Forall2_In_r _ _ _ _ Hconv Hin) as [row [Hrow Hrowc]].
  pose proof (convert_items_get _ row field [] emitted Hrowc) as G.
  destruct (source row field) as [[h v]|] eqn:Hsrc;
    [|rewrite Hget in G; discriminate].
  destruct G as [x' [Hx' Hget']]. rewrite Hget in Hget'. injection Hget' as <-.
  destruct (source_In _ _ _ _ Hsrc) as [Hitem _].
  assert (Hh : In h (headers table)).
  { apply distinct_In. rewrite <- (parsed_row_keys ws table row Hparse Hrow).
    unfold Dict.keys. apply in_map_iff. exists (h, v). auto. }
  exists h. repeat split; [|exact Hh|].
  - unfold column_of.
    rewrite <- (parsed_row_keys ws table row Hparse Hrow), <- source_keys, Hsrc.
    reflexivity.
  - rewrite <- column_type_inferred by exact Hh.
    exact (convert_value_type _ _ _ Hx').
Qed.

Example units_sheet_parses : parse_sheet units_sheet = Some units_table.
Proof. vm_compute. reflexivity. Qed.

Lemma emitted_columns_witness :
  exists converted,
    parse_sheet units_sheet = Some units_table /\
    converted_data units_table = Ok converted /\
    forall emitted field x,
      In emitted converted -> Dict.get field emitted = Some x ->
      exists header,
        column_of (headers units_table) field = Some header /\
        In header (headers units_table) /\
        value_type x = Some (infer_type (data units_table) header).
Proof.
  eexists. split; [vm_compute; reflexivity|].
  split; [vm_compute; reflexivity|].
  apply (emitted_columns_homogeneous units_sheet units_table);
    vm_compute; reflexivity.
Defined.

(* ===================================================================== *)
(** ** Determinism of the export                                          *)
(* ===================================================================== *)

Lemma convert_row_keys (types : Dict.t csharp_type) (row emitted : Dict.t value) :
  convert_row types row = Ok emitted ->
  Dict.keys emitted = distinct (map to_pascal_case (Dict.keys row)).
Proof. intros H. exact (convert_items_keys types row [] emitted H). Qed.

Lemma emitted_row_fields (ws : worksheet) (table : table_info)
    (converted : list (Dict.t value)) (emitted : Dict.t value) :
  parse_sheet ws = Some table ->
  converted_data table = Ok converted ->
  In emitted converted ->
  Dict.keys emitted = emitted_fields (headers table).
Proof.
  intros Hparse Hconv Hin.
  apply convert_rows_each in Hconv.
  destruct (Forall2_In_r _ _ _ _ Hconv Hin) as [row [Hrow Hrowc]].
  rewrite (convert_row_keys _ _ _ Hrowc).
  now rewrite (parsed_row_keys ws table row Hparse Hrow).
Qed.

(** C3. The export is a function of the parsed table: two parsed tables
    with the same headers and the same data rows give the same document
    text (or fail alike), and in every emitted row the field names and
    their order are [emitted_fields] of the header row, so two tables
    with the same header row emit the same fields in the same order
    whatever their data. *)
Theorem export_deterministic (ws1 ws2 : worksheet) (t1 t2 : table_info) :
  parse_sheet ws1 = Some t1 ->
  parse_sheet ws2 = Some t2 ->
  (headers t1 = headers t2 -> data t1 = data t2 -> json_str t1 = json_str t2) /\
  (forall converted emitted,
      converted_data t1 = Ok converted -> In emitted converted ->
      Dict.keys emitted = emitted_fields (headers t1)) /\
  (headers t1 = headers t2 ->
   forall c1 c2 e1 e2,
     converted_data t1 = Ok c1 -> converted_data t2 = Ok c2 ->
     In e1 c1 -> In e2 c2 -> Dict.keys e1 = Dict.keys e2).
Proof.
  intros H1 H2. split; [|split].
  - destruct t1, t2; simpl. now intros -> ->.
  - intros converted emitted Hc Hin.
    exact (emitted_row_fields ws1 t1 converted emitted H1 Hc Hin).
  - intros Hh c1 c2 e1 e2 Hc1 Hc2 Hin1 Hin2.
    rewrite (emitted_row_fields ws1 t1 c1 e1 H1 Hc1 Hin1).
    rewrite (emitted_row_fields ws2 t2 c2 e2 H2 Hc2 Hin2).
    now rewrite Hh.
Qed.

Lemma export_deterministic_witness :
  let other :=
    sheet_of [ [VStr "Id"; VStr "Name"; VStr "Speed"; VStr "Alive"];
               [VStr "x7"; VInt 12; VNone; VStr "no"] ] in
  exists t2 c1 c2,
    parse_sheet units_sheet = Some units_table /\
    parse_sheet other = Some t2 /\
    converted_data units_table = Ok c1 /\
    converted_data t2 = Ok c2 /\
    (forall emitted, In emitted c1 ->
                     Dict.keys emitted = ["Id"; "Name"; "Speed"; "Alive"]) /\
    (forall e1 e2, In e1 c1 -> In e2 c2 -> Dict.keys e1 = Dict.keys e2).
Proof.
  intros other.
  assert (H1 : parse_sheet units_sheet = Some units_table)
    by (vm_compute; reflexivity).
  let t := eval vm_compute in (parse_sheet other) in
  lazymatch t with
  | Some ?t2 =>
      let r1 := eval vm_compute in (converted_data units_table) in
      let r2 := eval vm_compute in (converted_data t2) in
      lazymatch r1 with
      | Ok ?c1 =>
          lazymatch r2 with
          | Ok ?c2 =>
              exists t2, c1, c2;
              assert (H2 : parse_sheet other = Some t2) by (vm_compute; reflexivity);
              assert (C1 : converted_data units_table = Ok c1)
                by (vm_compute; reflexivity);
              assert (C2 : converted_data t2 = Ok c2) by (vm_compute; reflexivity)
          end
      end
  end.
  destruct (export_deterministic units_sheet other _ _ H1 H2) as [_ [Hf Hsame]].
  repeat (split; [assumption|]). split.
  - intros emitted Hin. rewrite (Hf _ _ C1 Hin). vm_compute. reflexivity.
  - intros e1 e2 Hin1 Hin2. apply (Hsame eq_refl _ _ _ _ C1 C2 Hin1 Hin2).
Defined.

(* ===================================================================== *)
(** ** Column types                                                       *)
(* ===================================================================== *)

Lemma infer_from_first (all_rows rows : list (Dict.t value)) (header : string) :
  infer_from all_rows rows header =
  match first_nonempty rows header with
  | None => TString
  | Some v =>
      match to_csharp_type header v with
      | TInt => if has_fractional all_rows header then TFloat else TInt
      | ty => ty
      end
  end.
Proof.
  unfold first_nonempty.
  induction rows as [|row rest IH]; simpl; [reflexivity|].
  destruct (nonempty (row_get row header)); [reflexivity|exact IH].
Qed.



(** The example of the specification: [150] is emitted as [150.0]. *)
Example health_sheet_document :
  option_map converted_data (parse_sheet health_sheet)
  = Some (Ok [ [("Id", VInt 1); ("Name", VStr "Veteran");
                ("Maxhealth", VFloat (PyFloat.of_decimal false 150 0))];
               [("Id", VInt 2); ("Name", VStr "Rookie");
                ("Maxhealth", VFloat (PyFloat.of_decimal false 1505 (-1)))] ]) /\
  Json.encode_scalar (VFloat (PyFloat.of_decimal false 150 0)) = "150.0" /\
  Json.encode_scalar (VInt 150) = "150".
Proof. vm_compute. repeat split. Qed.



(* ===================================================================== *)
(** ** Values that do not fit their column                                *)
(* ===================================================================== *)

(** A text that does not parse is replaced by the default of the column,
    and no conversion of a text raises. *)
Lemma text_conversion_defaults (s : string) :
  (PyInt.of_string s = None -> convert_value TInt (VStr s) = Ok (VInt 0)) /\
  (PyFloat.of_string s = None ->
   convert_value TFloat (VStr s) = Ok (VFloat (S754_zero false))) /\
  (forall ty, exists x, convert_value ty (VStr s) = Ok x).
Proof.
  repeat split.
  - intros H. simpl. now rewrite H.
  - intros H. simpl. now rewrite H.
  - intros []; simpl; eauto.
    + destruct (PyInt.of_string s); simpl; eauto.
    + destruct (PyFloat.of_string s); simpl; eauto.
Qed.

Lemma float_of_bool (b : bool) : exists x, PyFloat.of_Z (if b then 1 else 0) = Ok x.
Proof. destruct b; vm_compute; eauto. Qed.

(** The conversions that raise: an infinite float in an int column and an
    integer beyond the range of a float in a float column, both with
    [OverflowError], which the handlers of [main] do not catch. *)
Lemma convert_value_raises (ty : csharp_type) (v : value) (e : exn) :
  convert_value ty v = Raise e <->
  e = OverflowError /\
  ((ty = TInt /\ exists s, v = VFloat (S754_infinity s)) \/
   (ty = TFloat /\ exists n, v = VInt n /\ PyFloat.of_Z n = Raise OverflowError)).
Proof.
  split.
  - destruct v as [| b | n | x | s].
    + destruct ty; discriminate.
    + destruct ty; simpl; try discriminate.
      destruct (float_of_bool b) as [x ->]. discriminate.
    + destruct ty; simpl; try discriminate.
      destruct (PyFloat.of_Z n) as [x|[| |]] eqn:E; simpl; try discriminate.
      intros [= <-]. split; [reflexivity|]. right. eauto.
    + destruct ty; simpl; try discriminate.
      destruct x as [s|s| |s m ex]; simpl; try discriminate.
      intros [= <-]. split; [reflexivity|]. left. eauto.
    + destruct (text_conversion_defaults s) as [_ [_ H]].
      destruct (H ty) as [x ->]. discriminate.
  - intros [-> [[-> [s ->]]|[-> [n [-> H]]]]]; simpl; [reflexivity|].
    now rewrite H.
Qed.

(** C6 fails on the code: in [oversized_sheet] the column [Hp] is inferred
    as float from [1.5], the later integer [10^400] makes [float(value)]
    raise [OverflowError], the handler catches only [ValueError] and
    [TypeError], and the run ends with that exception before any file is
    written.  An infinite float in an int column ends the run alike. *)
Theorem overflow_aborts_export :
  let table := table_of oversized_sheet in
  parse_sheet oversized_sheet = Some table /\
  column_type table "Hp" = TFloat /\
  Py.float (VInt (10 ^ 400)) = Raise OverflowError /\
  json_str table = Raise OverflowError /\
  main [("Units", Some [("Sheet1", oversized_sheet)])]
  = {| written := []; all_tables := []; raised := Some OverflowError |} /\
  column_type (table_of infinite_sheet) "Hp" = TInt /\
  json_str (table_of infinite_sheet) = Raise OverflowError.
Proof. vm_compute. repeat split. Qed.

(* ===================================================================== *)
(** ** The id-keyed dictionary of the manager                             *)
(* ===================================================================== *)

Section ManagerFacts.
Variable single_to_string : PyFloat.float -> string.

Lemma zdict_get_set (n m : Z) (o : Manager.object) (d : Manager.dictionary) :
  Manager.dict_get n (Manager.dict_set m o d)
  = if n =? m then Some o else Manager.dict_get n d.
Proof.
  induction d as [|[k v] d IH]; simpl.
  - reflexivity.
  - destruct (m =? k) eqn:E; simpl.
    + apply Z.eqb_eq in E. subst k. now destruct (n =? m).
    + rewrite IH. destruct (n =? k) eqn:E'; [|reflexivity].
      apply Z.eqb_eq in E'. subst k. rewrite (Z.eqb_sym n m), E. reflexivity.
Qed.

Lemma GetIdValue_id_name (n : Z) (v : Manager.cs_value) :
  Manager.GetIdValue single_to_string (Some [("Id", Manager.CsInt n); ("Name", v)])
  = if n =? 0 then None else Some n.
Proof.
  destruct (n =? 0) eqn:E.
  - apply Z.eqb_eq in E. subst n. reflexivity.
  - unfold Manager.GetIdValue. simpl. now rewrite E.
Qed.

Lemma GetIdValue_code_name (c v : Manager.cs_value) :
  Manager.GetIdValue single_to_string (Some [("Code", c); ("Name", v)]) = None.
Proof. reflexivity. Qed.

Lemma load_item_id_name (l : list Manager.object) (d : Manager.dictionary)
    (n : Z) (v : Manager.cs_value) :
  let o := [("Id", Manager.CsInt n); ("Name", v)] in
  Manager.load_item single_to_string (l, d) (Some o)
  = (l ++ [o], if n =? 0 then d else Manager.dict_set n o d).
Proof.
  intros o. unfold Manager.load_item. subst o. rewrite GetIdValue_id_name.
  destruct (n =? 0) eqn:E; [reflexivity|]. now rewrite E.
Qed.

Lemma last_with_id_cons (n m : Z) (v : Manager.cs_value) (rest : list Manager.object) :
  last_with_id n ([("Id", Manager.CsInt m); ("Name", v)] :: rest)
  = match last_with_id n rest with
    | Some o => Some o
    | None => if m =? n then Some [("Id", Manager.CsInt m); ("Name", v)] else None
    end.
Proof. reflexivity. Qed.

Lemma load_id_name_items (items : list Manager.object) :
  Forall id_name_object items ->
  forall l d,
    fst (fold_left (Manager.load_item single_to_string) (map Some items) (l, d))
    = l ++ items /\
    forall n,
      Manager.dict_get n
        (snd (fold_left (Manager.load_item single_to_string) (map Some items) (l, d)))
      = match (if n =? 0 then None else last_with_id n items) with
        | Some o => Some o
        | None => Manager.dict_get n d
        end.
Proof.
  induction 1 as [|o rest [m [v ->]] _ IH]; intros l d; cbn [map fold_left].
  - rewrite app_nil_r. split; [reflexivity|]. intros n. now destruct (n =? 0).
  - rewrite load_item_id_name.
    match goal with
    | |- context [fold_left _ _ (?l', ?d')] => destruct (IH l' d') as [Hl Hd]
    end.
    split; [now rewrite Hl, <- app_assoc|].
    intros n. rewrite Hd, last_with_id_cons.
    destruct (n =? 0) eqn:En.
    + destruct (m =? 0) eqn:Em; [reflexivity|].
      rewrite zdict_get_set.
      apply Z.eqb_eq in En. subst n. rewrite (Z.eqb_sym 0 m), Em. reflexivity.
    + destruct (last_with_id n rest); [reflexivity|].
      destruct (m =? 0) eqn:Em.
      * apply Z.eqb_eq in Em. subst m. rewrite (Z.eqb_sym 0 n), En. reflexivity.
      * rewrite zdict_get_set, (Z.eqb_sym n m). now destruct (m =? n).
Qed.

Lemma load_code_name_items (items : list Manager.object) :
  Forall code_name_object items ->
  forall l d, fold_left (Manager.load_item single_to_string) (map Some items) (l, d) = (l ++ items, d).
Proof.
  induction 1 as [|o rest [c [v ->]] _ IH]; intros l d; cbn [map fold_left].
  - now rewrite app_nil_r.
  - unfold Manager.load_item at 2. rewrite GetIdValue_code_name.
    rewrite IH, <- app_assoc. reflexivity.
Qed.

End ManagerFacts.

Lemma instance_id_name (table : table_info) (o : Manager.object) :
  headers table = ["Id"; "Name"] -> column_type table "Id" = TInt ->
  Manager.instance_of (class_fields (headers table) (data table)) o = true ->
  id_name_object o.
Proof.
  intros Hh Hty. unfold class_fields. unfold column_type in Hty.
  rewrite Hh in Hty |- *. cbn [map]. rewrite Hty.
  change (to_pascal_case "Id") with "Id".
  change (to_pascal_case "Name") with "Name".
  destruct o as [|[k1 v1] [|[k2 v2] [|]]]; cbn [Manager.instance_of];
    try discriminate; rewrite ?andb_false_r; try discriminate.
  intros H. rewrite andb_true_r in H.
  apply andb_prop in H. destruct H as [H1 H2].
  apply andb_prop in H1. destruct H1 as [H1 H1'].
  apply andb_prop in H2. destruct H2 as [H2 _].
  apply String.eqb_eq in H1, H2. subst k1 k2.
  destruct v1; try discriminate H1'. unfold id_name_object. eauto.
Qed.

Lemma instance_code_name (table : table_info) (o : Manager.object) :
  headers table = ["Code"; "Name"] ->
  Manager.instance_of (class_fields (headers table) (data table)) o = true ->
  code_name_object o.
Proof.
  intros Hh. unfold class_fields. rewrite Hh. cbn [map].
  change (to_pascal_case "Code") with "Code".
  change (to_pascal_case "Name") with "Name".
  destruct o as [|[k1 v1] [|[k2 v2] [|]]]; cbn [Manager.instance_of];
    try discriminate; rewrite ?andb_false_r; try discriminate.
  intros H. rewrite andb_true_r in H.
  apply andb_prop in H. destruct H as [H1 H2].
  apply andb_prop in H1. destruct H1 as [H1 _].
  apply andb_prop in H2. destruct H2 as [H2 _].
  apply String.eqb_eq in H1, H2. subst k1 k2.
  unfold code_name_object. eauto.
Qed.

Lemma last_with_id_found (n : Z) (items : list Manager.object) (o : Manager.object) :
  In o items -> Manager.get_field "Id" o = Some (Manager.CsInt n) ->
  exists o', last_with_id n items = Some o' /\
             Manager.get_field "Id" o' = Some (Manager.CsInt n).
Proof.
  induction items as [|a rest IH]; simpl; [tauto|].
  intros [->|Hin] Hid.
  - destruct (last_with_id n rest) as [o'|] eqn:E.
    + destruct rest as [|b rest']; [discriminate|].
      clear IH. revert o' E. generalize (b :: rest'). intros l.
      induction l as [|c l IHl]; simpl; [discriminate|].
      intros o'. destruct (last_with_id n l) as [o''|].
      * intros [= <-]. destruct (IHl o'' eq_refl) as [x [Hx Hx']].
        injection Hx as <-. eauto.
      * destruct (Manager.get_field "Id" c) as [[| m | | |]|] eqn:Ec;
          try discriminate.
        destruct (m =? n) eqn:Em; [|discriminate].
        apply Z.eqb_eq in Em. subst m. intros [= <-]. eauto.
    + rewrite Hid, Z.eqb_refl. eauto.
  - destruct (IH Hin Hid) as [o' [-> Ho']]. eauto.
Qed.

(** C7 (as amended). For a table whose header is [["Id"; "Name"]] and whose
    Id column is integer, [Initialize] puts every row in the list and
    enters every row whose Id is not 0 in the dictionary under its Id (the
    last row with that Id stays); no row is entered under 0.  For a table
    whose header is [["Code"; "Name"]] the list holds every row and the
    dictionary stays empty. *)
Theorem id_field_indexes_rows (single_to_string : PyFloat.float -> string)
    (table : table_info) (items : list Manager.object) :
  Forall (fun o => Manager.instance_of
                     (class_fields (headers table) (data table)) o = true) items ->
  (headers table = ["Id"; "Name"] -> column_type table "Id" = TInt ->
   let loaded := Manager.load_items single_to_string (map Some items) in
   fst loaded = items /\
   (forall n, Manager.dict_get n (snd loaded)
              = if n =? 0 then None else last_with_id n items) /\
   (forall o n, In o items -> Manager.get_field "Id" o = Some (Manager.CsInt n) ->
                n <> 0 ->
                exists o', Manager.dict_get n (snd loaded) = Some o' /\
                           Manager.get_field "Id" o' = Some (Manager.CsInt n))) /\
  (headers table = ["Code"; "Name"] ->
   Manager.load_items single_to_string (map Some items) = (items, [])).
Proof.
  intros Hitems. split.
  - intros Hh Hty loaded.
    assert (Hshape : Forall id_name_object items).
    { revert Hitems. apply Forall_impl. intros o. now apply instance_id_name. }
    destruct (load_id_name_items single_to_string items Hshape [] []) as [Hl Hd].
    fold (Manager.load_items single_to_string (map Some items)) in Hl, Hd.
    fold loaded in Hl, Hd.
    assert (Hget : forall n, Manager.dict_get n (snd loaded)
                             = if n =? 0 then None else last_with_id n items).
    { intros n. rewrite Hd. destruct (n =? 0); [reflexivity|].
      now destruct (last_with_id n items). }
    repeat split; [exact Hl|exact Hget|].
    intros o n Hin Hid Hn. rewrite Hget.
    apply Z.eqb_neq in Hn. rewrite Hn.
    exact (last_with_id_found n items o Hin Hid).
  - intros Hh.
    assert (Hshape : Forall code_name_object items).
    { revert Hitems. apply Forall_impl. intros o. now apply instance_code_name. }
    exact (load_code_name_items single_to_string items Hshape [] []).
Qed.

Lemma id_field_witness :
  Forall (fun o => Manager.instance_of
                     (class_fields (headers (table_of id_sheet))
                                   (data (table_of id_sheet))) o = true) id_items /\
  Forall (fun o => Manager.instance_of
                     (class_fields (headers (table_of code_sheet))
                                   (data (table_of code_sheet))) o = true) code_items /\
  fst (Manager.load_items no_single (map Some id_items)) = id_items /\
  (forall n, Manager.dict_get n (snd (Manager.load_items no_single (map Some id_items)))
             = if n =? 0 then None else last_with_id n id_items) /\
  Manager.load_items no_single (map Some code_items) = (code_items, []).
Proof.
  assert (H1 : Forall (fun o => Manager.instance_of
                        (class_fields (headers (table_of id_sheet))
                                      (data (table_of id_sheet))) o = true) id_items)
    by (repeat constructor).
  assert (H2 : Forall (fun o => Manager.instance_of
                        (class_fields (headers (table_of code_sheet))
                                      (data (table_of code_sheet))) o = true) code_items)
    by (repeat constructor).
  split; [exact H1|]. split; [exact H2|].
  destruct (id_field_indexes_rows no_single (table_of id_sheet) id_items H1)
    as [Hid _].
  destruct (id_field_indexes_rows no_single (table_of code_sheet) code_items H2)
    as [_ Hcode].
  assert (Hh : headers (table_of id_sheet) = ["Id"; "Name"]) by (vm_compute; reflexivity).
  assert (Hty : column_type (table_of id_sheet) "Id" = TInt) by (vm_compute; reflexivity).
  destruct (Hid Hh Hty) as [Hl [Hd _]].
  split; [exact Hl|]. split; [exact Hd|].
  apply Hcode. vm_compute. reflexivity.
Defined.

(** C7 (as stated) fails: [id_sheet] has the header [["Id"; "Name"]] and
    two rows; the second has an empty Id cell, emitted as [0].  After
    [Initialize] both rows are in the list, and the dictionary holds the
    first row only. *)
Lemma zero_id_row_not_indexed :
  headers (table_of id_sheet) = ["Id"; "Name"] /\
  converted_data (table_of id_sheet)
  = Ok [ [("Id", VInt 1); ("Name", VStr "Veteran")];
         [("Id", VInt 0); ("Name", VStr "Rookie")] ] /\
  class_fields (headers (table_of id_sheet)) (data (table_of id_sheet))
  = [("Id", TInt); ("Name", TString)] /\
  Manager.load_items no_single (map Some id_items)
  = (id_items, [(1, [("Id", Manager.CsInt 1); ("Name", Manager.CsString "Veteran")])]) /\
  Manager.GetIdValue no_single
    (Some [("Id", Manager.CsInt 0); ("Name", Manager.CsString "Rookie")]) = None.
Proof. vm_compute. repeat split. Qed.

(* ===================================================================== *)
(** ** Shape of a parsed table                                            *)
(* ===================================================================== *)

Lemma add_key_NoDup (ks : list string) (k : string) : NoDup ks -> NoDup (add_key ks k).
Proof.
  intros H. unfold add_key. destruct (PyStr.mem k ks) eqn:E; [exact H|].
  assert (Hk : ~ In k ks) by (rewrite <- mem_In; congruence).
  clear E. induction H as [|a l Ha Hl IH]; simpl.
  - constructor; [tauto|constructor].
  - simpl in Hk. constructor.
    + rewrite in_app_iff. simpl. intros [Hin|[Heq|[]]]; [tauto|]. subst. tauto.
    + apply IH. tauto.
Qed.

Lemma distinct_NoDup (l : list string) : NoDup (distinct l).
Proof.
  unfold distinct. generalize (NoDup_nil string). generalize (@nil string).
  induction l as [|a l IH]; intros ks H; simpl; [exact H|].
  apply IH. now apply add_key_NoDup.
Qed.

Lemma read_row_cells (ws : worksheet) (hs : list string) (r : nat)
    (h : string) (v : value) :
  Dict.get h (read_row ws hs r) = Some v ->
  exists c, v = read_value (cell_value ws r c).
Proof.
  intros H. apply get_In in H.
  pose proof (read_row_values
                (fun v => exists c, v = read_value (cell_value ws r c)) ws r
                (fun c => ex_intro _ c eq_refl) hs) as Hall.
  rewrite Forall_forall in Hall. apply Hall.
  unfold Dict.values. apply in_map_iff. exists (h, v). auto.
Qed.

Lemma read_value_stripped (v : value) (s : string) :
  read_value v = VStr s -> PyStr.strip s = s.
Proof.
  destruct v; simpl; try discriminate.
  intros [= <-]. apply strip_idempotent.
Qed.

(** X1. Every table that [parse_excel_file] keeps has at least one data
    row and at most [max_row - 1]; every row has a key for each header, in
    header order and without repetition, holds some content, and holds its
    texts stripped of surrounding white space. *)
Theorem parsed_table_shape (ws : worksheet) (table : table_info) :
  parse_sheet ws = Some table ->
  headers table = read_headers ws /\
  data table <> [] /\
  (List.length (data table) <= max_row ws - 1)%nat /\
  forall row, In row (data table) ->
    Dict.keys row = distinct (headers table) /\
    NoDup (Dict.keys row) /\
    row_has_content row = true /\
    forall h s, Dict.get h row = Some (VStr s) -> PyStr.strip s = s.
Proof.
  intros Hparse. pose proof Hparse as Hp.
  unfold parse_sheet in Hp.
  destruct (max_row ws <? 2)%nat; [discriminate|].
  destruct (read_data_rows ws (read_headers ws)) as [|row0 rows0] eqn:Hrows;
    [discriminate|].
  injection Hp as <-. cbn [headers data].
  split; [reflexivity|]. split; [discriminate|]. split.
  - rewrite <- Hrows. unfold read_data_rows.
    etransitivity; [apply filter_length_le|].
    now rewrite length_map, length_seq.
  - intros row Hin.
    assert (Hkeys : Dict.keys row = distinct (read_headers ws)).
    { apply (parsed_row_keys ws _ row Hparse). exact Hin. }
    split; [exact Hkeys|]. split; [rewrite Hkeys; apply distinct_NoDup|].
    rewrite <- Hrows in Hin. unfold read_data_rows in Hin.
    apply filter_In in Hin. destruct Hin as [Hin Hcontent].
    split; [exact Hcontent|].
    apply in_map_iff in Hin. destruct Hin as [r [<- _]].
    intros h s Hget. destruct (read_row_cells _ _ _ _ _ Hget) as [c Hc].
    symmetry in Hc. exact (read_value_stripped _ _ Hc).
Qed.

Lemma parsed_table_shape_witness :
  headers units_table = read_headers units_sheet /\
  data units_table <> [] /\
  (List.length (data units_table) <= max_row units_sheet - 1)%nat /\
  forall row, In row (data units_table) ->
    Dict.keys row = distinct (headers units_table) /\
    NoDup (Dict.keys row) /\
    row_has_content row = true /\
    forall h s, Dict.get h row = Some (VStr s) -> PyStr.strip s = s.
Proof.
  apply (parsed_table_shape units_sheet units_table). vm_compute. reflexivity.
Defined.

(* ===================================================================== *)
(** ** Columns that share a header                                        *)
(* ===================================================================== *)

Lemma read_row_from_other (ws : worksheet) (r : nat) (h : string) (hs : list string) :
  ~ In h hs ->
  forall start acc,
    Dict.get h
      (fold_left
         (fun row_data ch =>
            Dict.set (snd ch) (read_value (cell_value ws r (fst ch))) row_data)
         (enumerate hs start) acc)
    = Dict.get h acc.
Proof.
  induction hs as [|a hs IH]; intros Hh start acc; simpl; [reflexivity|].
  simpl in Hh. rewrite IH by tauto.
  apply get_set_other. apply String.eqb_neq. intros ->. tauto.
Qed.

Lemma read_row_from_last (ws : worksheet) (r : nat) (h : string)
    (before after : list string) :
  ~ In h after ->
  forall start acc,
    Dict.get h
      (fold_left
         (fun row_data ch =>
            Dict.set (snd ch) (read_value (cell_value ws r (fst ch))) row_data)
         (enumerate (before ++ h :: after) start) acc)
    = Some (read_value (cell_value ws r (start + List.length before))).
Proof.
  intros Hh. induction before as [|a before IH]; intros start acc; simpl.
  - rewrite read_row_from_other by exact Hh.
    rewrite get_set_same. now rewrite Nat.add_0_r.
  - rewrite IH. now rewrite Nat.add_succ_r.
Qed.

(** X2. When several columns carry the same header, a data row keeps the
    cell of the last of them under that header; a header that no column
    carries has no entry in the row. *)
Theorem last_column_wins (ws : worksheet) (r : nat) (h : string)
    (before after : list string) :
  ~ In h after ->
  Dict.get h (read_row ws (before ++ h :: after) r)
  = Some (read_value (cell_value ws r (S (List.length before)))) /\
  forall h', ~ In h' (before ++ h :: after) ->
             Dict.get h' (read_row ws (before ++ h :: after) r) = None.
Proof.
  intros Hh. split.
  - unfold read_row. now rewrite read_row_from_last.
  - intros h' Hh'. unfold read_row. now rewrite read_row_from_other.
Qed.

Lemma last_column_wins_witness :
  let ws := sheet_of [ [VStr "Hp"; VStr "Name"; VStr "Hp"];
                       [VInt 10; VStr "Veteran"; VInt 25] ] in
  ~ In "Hp" [] /\
  Dict.get "Hp" (read_row ws (["Hp"; "Name"] ++ "Hp" :: []) 2) = Some (VInt 25).
Proof.
  intros ws. split; [simpl; tauto|].
  exact (proj1 (last_column_wins ws 2 "Hp" ["Hp"; "Name"] [] (fun H => H))).
Defined.

(* ===================================================================== *)
(** ** The run as a whole                                                 *)
(* ===================================================================== *)

Lemma unpopulated_sheets_no_tables (wb : workbook) :
  Forall (fun sheet => populated (snd sheet) = false) wb -> parse_sheets wb = [].
Proof.
  intros H. unfold parse_sheets.
  assert (G : forall acc,
             fold_left
               (fun result sheet =>
                  match parse_sheet (snd sheet) with
                  | Some table => Dict.set (fst sheet) table result
                  | None => result
                  end) wb acc = acc).
  { induction H as [|sheet wb Hs _ IH]; intros acc; simpl; [reflexivity|].
    rewrite (unpopulated_no_table _ Hs). apply IH. }
  apply G.
Qed.

(** X3. A workbook that cannot be loaded, and a workbook none of whose
    sheets is populated, is skipped: the run writes what it writes
    without that file. *)
Theorem unusable_file_is_skipped (stem : string) (file : option workbook)
    (earlier later : list (string * option workbook)) :
  file = None \/
  (exists wb, file = Some wb /\
              Forall (fun sheet => populated (snd sheet) = false) wb) ->
  main (earlier ++ (stem, file) :: later) = main (earlier ++ later).
Proof.
  intros Hfile.
  assert (Hnone : parse_excel_file file = None).
  { destruct Hfile as [->|[wb [-> Hwb]]]; [reflexivity|].
    unfold parse_excel_file. now rewrite unpopulated_sheets_no_tables. }
  assert (Hskip : forall r, export_file r (stem, file) = r).
  { intros r. unfold export_file, keyed_tables. cbn [fst snd].
    now rewrite Hnone. }
  unfold main. rewrite !fold_left_app. cbn [fold_left].
  now rewrite Hskip.
Qed.

Lemma unusable_file_witness :
  let units := sheet_of [[VStr "Id"; VStr "Name"]; [VInt 1; VStr "Veteran"]] in
  let blank := sheet_of [[VStr "Id"; VStr "Name"]; [VNone; VStr "  "]] in
  main ([("Units", Some [("Sheet1", units)])] ++ ("Broken", None) :: [])
  = main ([("Units", Some [("Sheet1", units)])] ++ []) /\
  main ([] ++ ("Notes", Some [("Sheet1", blank)])
           :: [("Units", Some [("Sheet1", units)])])
  = main ([] ++ [("Units", Some [("Sheet1", units)])]).
Proof.
  intros units blank. split.
  - apply (unusable_file_is_skipped "Broken" None). now left.
  - apply (unusable_file_is_skipped "Notes" (Some [("Sheet1", blank)])).
    right. eexists. split; [reflexivity|]. repeat constructor.
Defined.

Lemma export_table_after_raise (key : string) (table : table_info) (r : run) (e : exn) :
  raised r = Some e -> export_table key table r = r.
Proof. intros H. unfold export_table. now rewrite H. Qed.

Lemma export_jobs_after_raise (jobs : list (string * table_info)) (r : run) (e : exn) :
  raised r = Some e ->
  fold_left (fun r kt => export_table (fst kt) (snd kt) r) jobs r = r.
Proof.
  induction jobs as [|job jobs IH]; intros H; simpl; [reflexivity|].
  rewrite (export_table_after_raise _ _ _ _ H). now apply IH.
Qed.

Lemma export_table_step (key : string) (table : table_info) (r : run) :
  raised r = None -> data table <> [] ->
  match json_str table with
  | Ok _ =>
      raised (export_table key table r) = None /\
      written (export_table key table r) = written r ++ files_of (key, table) /\
      Dict.keys (all_tables (export_table key table r))
      = add_key (Dict.keys (all_tables r)) key
  | Raise e =>
      raised (export_table key table r) = Some e /\
      written (export_table key table r) = written r
  end.
Proof.
  intros Hr Hdata. unfold export_table, files_of. rewrite Hr. cbn [fst snd].
  destruct (json_str table) as [text|e]; [|split; reflexivity].
  destruct (data table) as [|row rows]; [now elim Hdata|].
  cbn [raised written all_tables]. now rewrite keys_set.
Qed.

Lemma export_jobs_run (jobs : list (string * table_info)) :
  Forall (fun job => data (snd job) <> []) jobs ->
  forall r,
    raised r = None ->
    raised (fold_left (fun r kt => export_table (fst kt) (snd kt) r) jobs r) = None ->
    Forall (fun job => exists text, json_str (snd job) = Ok text) jobs /\
    written (fold_left (fun r kt => export_table (fst kt) (snd kt) r) jobs r)
    = written r ++ flat_map files_of jobs /\
    Dict.keys (all_tables (fold_left (fun r kt => export_table (fst kt) (snd kt) r) jobs r))
    = fold_left add_key (map fst jobs) (Dict.keys (all_tables r)).
Proof.
  induction 1 as [|[key table] jobs Hdata _ IH]; intros r Hr Hend;
    cbn [fold_left flat_map map fst snd] in *.
  - now rewrite app_nil_r.
  - pose proof (export_table_step key table r Hr Hdata) as Hstep.
    destruct (json_str table) as [text|e] eqn:Hjson.
    + destruct Hstep as [Hr1 [Hw1 Hk1]].
      destruct (IH _ Hr1 Hend) as [Hall [Hw Hk]].
      split; [constructor; eauto|]. split.
      * rewrite Hw, Hw1, <- app_assoc. reflexivity.
      * rewrite Hk, Hk1. reflexivity.
    + destruct Hstep as [Hstep _].
      rewrite (export_jobs_after_raise jobs _ e Hstep) in Hend.
      rewrite Hstep in Hend. discriminate.
Qed.

Lemma parse_sheets_parsed (wb : workbook) (name : string) (table : table_info) :
  In (name, table) (parse_sheets wb) -> exists ws, parse_sheet ws = Some table.
Proof.
  unfold parse_sheets.
  assert (H0 : Forall (fun t => exists ws, parse_sheet ws = Some t)
                 (Dict.values (@nil (string * table_info)))) by constructor.
  revert H0. generalize (@nil (string * table_info)).
  induction wb as [|[n ws] wb IH]; intros acc Hacc Hin; simpl in *.
  - rewrite Forall_forall in Hacc. apply Hacc.
    unfold Dict.values. apply in_map_iff. exists (name, table). auto.
  - destruct (parse_sheet ws) as [t|] eqn:E.
    + apply (IH (Dict.set n t acc)); [|exact Hin].
      apply values_set; eauto.
    + apply (IH acc Hacc Hin).
Qed.

Lemma keyed_tables_parsed (stem : string) (file : option workbook)
    (key : string) (table : table_info) :
  In (key, table) (keyed_tables stem file) -> exists ws, parse_sheet ws = Some table.
Proof.
  unfold keyed_tables. destruct (parse_excel_file file) as [tables|] eqn:E; [|intros []].
  intros Hin. apply in_map_iff in Hin. destruct Hin as [[name t] [[= _ ->] Hin]].
  unfold parse_excel_file in E. destruct file as [wb|]; [|discriminate].
  destruct (parse_sheets wb) as [|p l] eqn:Hp; [discriminate|].
  injection E as <-. rewrite <- Hp in Hin.
  exact (parse_sheets_parsed wb name table Hin).
Qed.

Lemma all_keyed_have_rows (xlsx_files : list (string * option workbook)) :
  Forall (fun job => data (snd job) <> []) (all_keyed xlsx_files).
Proof.
  apply Forall_forall. intros [key table] Hin.
  unfold all_keyed in Hin. apply in_flat_map in Hin.
  destruct Hin as [[stem file] [_ Hin]].
  destruct (keyed_tables_parsed _ _ _ _ Hin) as [ws Hws].
  cbn [snd]. unfold parse_sheet in Hws.
  destruct (max_row ws <? 2)%nat; [discriminate|].
  destruct (read_data_rows ws (read_headers ws)); [discriminate|].
  injection Hws as <-. discriminate.
Qed.

Lemma export_files_as_jobs (xlsx_files : list (string * option workbook)) (r : run) :
  fold_left export_file xlsx_files r
  = fold_left (fun r kt => export_table (fst kt) (snd kt) r) (all_keyed xlsx_files) r.
Proof.
  revert r. induction xlsx_files as [|file files IH]; intros r; [reflexivity|].
  cbn [fold_left all_keyed flat_map]. rewrite fold_left_app, IH. reflexivity.
Qed.

Lemma distinct_nil (l : list string) : distinct l = [] -> l = [].
Proof.
  destruct l as [|a l]; [reflexivity|]. intros H.
  assert (Hin : In a (distinct (a :: l))) by (apply distinct_In; now left).
  rewrite H in Hin. destruct Hin.
Qed.

(** X4. A run that ends without an exception has built the document of
    every table and has written, table by table in export order, the
    JSON file and then the class file (the class file is never left out),
    followed by the manager and the array wrappers when there is at least
    one table; the tables of the manager are the distinct table keys. *)
Theorem successful_run_output (xlsx_files : list (string * option workbook)) :
  raised (main xlsx_files) = None ->
  let jobs := all_keyed xlsx_files in
  Forall (fun job => exists text, json_str (snd job) = Ok text) jobs /\
  Dict.keys (all_tables (main xlsx_files)) = distinct (map fst jobs) /\
  written (main xlsx_files)
  = flat_map files_of jobs
    ++ match jobs with
       | [] => []
       | _ => [ManagerFile (distinct (map fst jobs));
               ArrayFile (generate_array_wrapper_classes
                            (all_tables (main xlsx_files)))]
       end.
Proof.
  intros Hend jobs.
  assert (Hr0 : raised (fold_left export_file xlsx_files start) = None).
  { unfold main in Hend.
    destruct (raised (fold_left export_file xlsx_files start)) eqn:E; [|reflexivity].
    rewrite E in Hend. discriminate. }
  pose proof Hr0 as Hr1. rewrite export_files_as_jobs in Hr1.
  destruct (export_jobs_run _ (all_keyed_have_rows xlsx_files) start eq_refl Hr1)
    as [Hall [Hw Hk]].
  rewrite <- export_files_as_jobs in Hw, Hk. fold jobs in Hall, Hw, Hk.
  cbn [start written all_tables Dict.keys map app] in Hw, Hk.
  fold (distinct (map fst jobs)) in Hk.
  split; [exact Hall|].
  unfold main. rewrite Hr0.
  destruct (all_tables (fold_left export_file xlsx_files start)) as [|p l] eqn:Ht.
  - cbn [Dict.keys map] in Hk. symmetry in Hk. apply distinct_nil in Hk.
    split; [now rewrite Ht, Hk|].
    rewrite Hw. destruct jobs; [now rewrite app_nil_r|discriminate].
  - cbn [all_tables written]. split; [exact Hk|].
    rewrite Hw, Hk. destruct jobs as [|j js]; [discriminate|reflexivity].
Qed.

Lemma successful_run_witness :
  let files := [("Units", Some [("Heroes", units_sheet); ("Health", health_sheet)])] in
  raised (main files) = None /\
  Dict.keys (all_tables (main files)) = ["Units_Heroes"; "Units_Health"] /\
  map (fun f => match f with
                | JsonFile name _ | ClassFile name _ => name
                | ManagerFile _ => "ExcelDataManager.cs"
                | ArrayFile _ => "ExcelDataArray.cs"
                end) (written (main files))
  = ["Units_Heroes.json"; "UnitsHeroesData.cs"; "Units_Health.json";
     "UnitsHealthData.cs"; "ExcelDataManager.cs"; "ExcelDataArray.cs"].
Proof.
  intros files.
  assert (H : raised (main files) = None) by (vm_compute; reflexivity).
  split; [exact H|].
  destruct (successful_run_output files H) as [_ [Hk Hw]].
  split.
  - rewrite Hk. vm_compute. reflexivity.
  - rewrite Hw. vm_compute. reflexivity.
Defined.

Lemma export_jobs_all_ok (jobs : list (string * table_info)) :
  Forall (fun job => data (snd job) <> []) jobs ->
  Forall (fun job => exists text, json_str (snd job) = Ok text) jobs ->
  forall r, raised r = None ->
    raised (fold_left (fun r kt => export_table (fst kt) (snd kt) r) jobs r) = None /\
    written (fold_left (fun r kt => export_table (fst kt) (snd kt) r) jobs r)
    = written r ++ flat_map files_of jobs.
Proof.
  induction 1 as [|[key table] jobs Hdata _ IH]; intros Hok r Hr;
    cbn [fold_left flat_map fst snd].
  - now rewrite app_nil_r.
  - inversion Hok as [|? ? [text Htext] Hrest]; subst. cbn [snd] in Htext.
    pose proof (export_table_step key table r Hr Hdata) as Hstep.
    rewrite Htext in Hstep. destruct Hstep as [Hr1 [Hw1 _]].
    destruct (IH Hrest _ Hr1) as [Hr2 Hw2].
    split; [exact Hr2|]. rewrite Hw2, Hw1, <- app_assoc. reflexivity.
Qed.

(** X5. The first table whose document cannot be built ends the run
    with its exception: the files of the tables exported before it stay
    written, nothing is written for it or for any later table, and the
    manager and the array wrappers are not written. *)
Theorem first_failure_ends_run (xlsx_files : list (string * option workbook))
    (done todo : list (string * table_info)) (job : string * table_info) (e : exn) :
  all_keyed xlsx_files = done ++ job :: todo ->
  Forall (fun job => exists text, json_str (snd job) = Ok text) done ->
  json_str (snd job) = Raise e ->
  raised (main xlsx_files) = Some e /\
  written (main xlsx_files) = flat_map files_of done.
Proof.
  intros Hjobs Hdone Hjob.
  pose proof (all_keyed_have_rows xlsx_files) as Hrows. rewrite Hjobs in Hrows.
  apply Forall_app in Hrows. destruct Hrows as [Hrows1 Hrows2].
  inversion Hrows2 as [|? ? Hrowj _]; subst.
  assert (Hrun : fold_left export_file xlsx_files start
                 = export_table (fst job) (snd job)
                     (fold_left (fun r kt => export_table (fst kt) (snd kt) r)
                                done start)).
  { rewrite export_files_as_jobs, Hjobs, fold_left_app. cbn [fold_left].
    destruct (export_jobs_all_ok done Hrows1 Hdone start eq_refl) as [Hr _].
    pose proof (export_table_step (fst job) (snd job) _ Hr Hrowj) as Hstep.
    rewrite Hjob in Hstep. destruct Hstep as [Hstep _].
    now apply export_jobs_after_raise with (e := e). }
  destruct (export_jobs_all_ok done Hrows1 Hdone start eq_refl) as [Hr Hw].
  pose proof (export_table_step (fst job) (snd job) _ Hr Hrowj) as Hstep.
  rewrite Hjob in Hstep. destruct Hstep as [Hstep Hsame].
  assert (Hmain : main xlsx_files
                  = export_table (fst job) (snd job)
                      (fold_left (fun r kt => export_table (fst kt) (snd kt) r)
                                 done start)).
  { unfold main. rewrite Hrun, Hstep. reflexivity. }
  rewrite Hmain. split; [exact Hstep|].
  rewrite Hsame. exact Hw.
Qed.

Lemma first_failure_witness :
  let files := [("Units", Some [("Heroes", units_sheet); ("Hp", oversized_sheet);
                                ("Health", health_sheet)])] in
  raised (main files) = Some OverflowError /\
  written (main files)
  = flat_map files_of [("Units_Heroes", units_table)].
Proof.
  intros files.
  apply (first_failure_ends_run files [("Units_Heroes", units_table)]
           [("Units_Health", table_of health_sheet)]
           ("Units_Hp", table_of oversized_sheet) OverflowError).
  - vm_compute. reflexivity.
  - repeat constructor. eexists. vm_compute. reflexivity.
  - vm_compute. reflexivity.
Defined.

(* ===================================================================== *)
(** ** When the document of a table cannot be built                       *)
(* ===================================================================== *)

Lemma convert_items_raise (types : Dict.t csharp_type) (items : list (string * value))
    (e : exn) :
  forall d, convert_items types items d = Raise e ->
  exists h v, In (h, v) items /\ convert_value (field_type types h) v = Raise e.
Proof.
  induction items as [|[h v] rest IH]; intros d H; simpl in H; [discriminate|].
  destruct (convert_value (field_type types h) v) as [x|e'] eqn:E; simpl in H.
  - destruct (IH _ H) as [h' [v' [Hin Hc]]]. exists h', v'. split; [now right|exact Hc].
  - injection H as ->. exists h, v. split; [now left|exact E].
Qed.

Lemma convert_items_raises_on (types : Dict.t csharp_type)
    (items : list (string * value)) (h : string) (v : value) (e : exn) :
  In (h, v) items -> convert_value (field_type types h) v = Raise e ->
  forall d, exists e', convert_items types items d = Raise e'.
Proof.
  induction items as [|[h' v'] rest IH]; intros Hin Hc d; simpl in *; [tauto|].
  destruct (convert_value (field_type types h') v') as [x|e'] eqn:E; simpl; [|eauto].
  destruct Hin as [[= -> ->]|Hin]; [congruence|]. now apply IH.
Qed.

Lemma convert_rows_raise (types : Dict.t csharp_type) (rows : list (Dict.t value))
    (e : exn) :
  convert_rows types rows = Raise e ->
  exists row, In row rows /\ convert_row types row = Raise e.
Proof.
  induction rows as [|row rows IH]; simpl; [discriminate|].
  destruct (convert_row types row) as [r|e'] eqn:E; simpl.
  - destruct (convert_rows types rows) as [rs|e''] eqn:E'; simpl; [discriminate|].
    intros [= ->]. destruct (IH eq_refl) as [row' [Hin Hr]]. eauto.
  - intros [= ->]. eauto.
Qed.

Lemma convert_rows_raises_on (types : Dict.t csharp_type) (rows : list (Dict.t value))
    (row : Dict.t value) (e : exn) :
  In row rows -> convert_row types row = Raise e ->
  exists e', convert_rows types rows = Raise e'.
Proof.
  induction rows as [|row' rows IH]; simpl; [tauto|].
  intros [->|Hin] Hr.
  - rewrite Hr. simpl. eauto.
  - destruct (convert_row types row'); simpl; [|eauto].
    destruct (IH Hin Hr) as [e' ->]. simpl. eauto.
Qed.

Lemma json_str_raise (table : table_info) (e : exn) :
  json_str table = Raise e <-> converted_data table = Raise e.
Proof.
  unfold json_str. destruct (converted_data table); simpl; split; congruence.
Qed.

(** X6. Building the document of a table fails only with
    [OverflowError], and it fails exactly when some cell of some row
    overflows its column: an infinite float in an int column, or an
    integer beyond the range of a float in a float column.  Texts that do
    not parse, NaN, booleans and empty cells never make it fail. *)
Theorem document_fails_exactly_on_overflow (table : table_info) :
  (forall e, json_str table = Raise e -> e = OverflowError) /\
  (json_str table = Raise OverflowError <->
   exists row h v, In row (data table) /\ In (h, v) row /\
                   overflows (column_type table h) v).
Proof.
  assert (Hraise : forall e, json_str table = Raise e ->
                     e = OverflowError /\
                     exists row h v, In row (data table) /\ In (h, v) row /\
                                     overflows (column_type table h) v).
  { intros e H. apply json_str_raise in H. unfold converted_data in H.
    destruct (convert_rows_raise _ _ _ H) as [row [Hin Hrow]].
    destruct (convert_items_raise _ _ _ _ Hrow) as [h [v [Hitem Hv]]].
    apply convert_value_raises in Hv. destruct Hv as [-> Hv].
    split; [reflexivity|]. exists row, h, v. auto. }
  split; [intros e H; exact (proj1 (Hraise e H))|]. split.
  - intros H. exact (proj2 (Hraise _ H)).
  - intros [row [h [v [Hin [Hitem Hov]]]]].
    assert (Hv : convert_value (column_type table h) v = Raise OverflowError)
      by (apply convert_value_raises; auto).
    destruct (convert_items_raises_on _ row h v _ Hitem Hv []) as [e1 He1].
    destruct (convert_rows_raises_on _ (data table) row e1 Hin He1) as [e2 He2].
    assert (Hjson : json_str table = Raise e2) by (now apply json_str_raise).
    now rewrite (proj1 (Hraise e2 Hjson)) in Hjson.
Qed.

(* ===================================================================== *)
(** ** The generated class and the document                               *)
(* ===================================================================== *)

Lemma fold_add_key_fresh (l ks : list string) :
  NoDup l -> (forall k, In k l -> ~ In k ks) ->
  fold_left add_key l ks = ks ++ l.
Proof.
  revert ks. induction l as [|a l IH]; intros ks Hnd Hfresh; simpl.
  - now rewrite app_nil_r.
  - inversion Hnd as [|? ? Ha Hl]; subst.
    assert (Hmem : PyStr.mem a ks = false).
    { apply not_true_is_false. rewrite mem_In. apply Hfresh. now left. }
    unfold add_key at 2. rewrite Hmem.
    rewrite IH; [now rewrite <- app_assoc|exact Hl|].
    intros k Hk Hin. apply in_app_or in Hin. destruct Hin as [Hin|[<-|[]]].
    + apply (Hfresh k); [now right|exact Hin].
    + exact (Ha Hk).
Qed.

Lemma distinct_of_NoDup (l : list string) : NoDup l -> distinct l = l.
Proof.
  intros H. unfold distinct. now rewrite fold_add_key_fresh by (auto; intros k _ []).
Qed.

Lemma NoDup_map_inv' {A B : Type} (f : A -> B) (l : list A) :
  NoDup (map f l) -> NoDup l.
Proof.
  induction l as [|a l IH]; simpl; intros H; [constructor|].
  inversion H as [|? ? Ha Hl]; subst. constructor; [|auto].
  intros Hin. apply Ha. now apply in_map.
Qed.

(** Without a clash of field names the items are emitted one by one. *)
Lemma convert_items_fresh (types : Dict.t csharp_type) (items : list (string * value)) :
  NoDup (map to_pascal_case (Dict.keys items)) ->
  forall d d',
    (forall k, In k (map to_pascal_case (Dict.keys items)) -> ~ In k (Dict.keys d)) ->
    convert_items types items d = Ok d' ->
    exists l,
      d' = d ++ l /\
      Forall2 (fun item kv =>
                 fst kv = to_pascal_case (fst item) /\
                 convert_value (field_type types (fst item)) (snd item) = Ok (snd kv))
              items l.
Proof.
  induction items as [|[h v] rest IH]; intros Hnd d d' Hfresh H; simpl in *.
  - injection H as <-. exists []. split; [now rewrite app_nil_r|constructor].
  - inversion Hnd as [|? ? Hh Hrest]; subst.
    destruct (convert_value (field_type types h) v) as [x|e] eqn:Hx;
      simpl in H; [|discriminate].
    rewrite set_fresh in H by (apply Hfresh; now left).
    assert (Hfresh' : forall k, In k (map to_pascal_case (Dict.keys rest)) ->
                                ~ In k (Dict.keys (d ++ [(to_pascal_case h, x)]))).
    { intros k Hk. unfold Dict.keys. rewrite map_app, in_app_iff. simpl.
      intros [Hin|[<-|[]]]; [|exact (Hh Hk)].
      apply (Hfresh k); [now right|exact Hin]. }
    destruct (IH Hrest _ _ Hfresh' H) as [l [-> Hl]].
    exists ((to_pascal_case h, x) :: l). split; [now rewrite <- app_assoc|].
    constructor; [split; [reflexivity|exact Hx]|exact Hl].
Qed.

(** X7. For a parsed table whose headers give distinct field names, every
    emitted row has exactly the fields the generated class declares, in
    the order of declaration, and the value of each field has the type
    declared for it. *)
Theorem class_matches_document (ws : worksheet) (table : table_info)
    (converted : list (Dict.t value)) :
  parse_sheet ws = Some table ->
  NoDup (map to_pascal_case (headers table)) ->
  converted_data table = Ok converted ->
  forall emitted, In emitted converted ->
    Forall2 (fun field kv =>
               fst kv = fst field /\ value_type (snd kv) = Some (snd field))
            (class_fields (headers table) (data table)) emitted.
Proof.
  intros Hparse Hnd Hconv emitted Hin.
  apply convert_rows_each in Hconv.
  destruct (Forall2_In_r _ _ _ _ Hconv Hin) as [row [Hrow Hrowc]].
  assert (Hkeys : Dict.keys row = headers table).
  { rewrite (parsed_row_keys ws table row Hparse Hrow).
    apply distinct_of_NoDup. exact (NoDup_map_inv' _ _ Hnd). }
  unfold convert_row in Hrowc.
  assert (Hnd' : NoDup (map to_pascal_case (Dict.keys row))) by (now rewrite Hkeys).
  destruct (convert_items_fresh (field_types (headers table) (data table)) row Hnd'
              [] emitted (fun k _ H => H) Hrowc) as [l [-> Hl]].
  simpl. unfold class_fields. cbv zeta.
  revert Hl. generalize (field_types (headers table) (data table)). intros types Hl.
  rewrite <- Hkeys. unfold Dict.keys.
  clear - Hl. induction Hl as [|[h v] [k x] row l [Hk Hx] _ IH]; simpl; constructor.
  - simpl in *. split; [exact Hk|]. exact (convert_value_type _ _ _ Hx).
  - exact IH.
Qed.

Lemma class_matches_document_witness :
  exists converted,
    parse_sheet units_sheet = Some units_table /\
    NoDup (map to_pascal_case (headers units_table)) /\
    converted_data units_table = Ok converted /\
    forall emitted, In emitted converted ->
      Forall2 (fun field kv =>
                 fst kv = fst field /\ value_type (snd kv) = Some (snd field))
              [("Id", TInt); ("Name", TString); ("Speed", TFloat); ("Alive", TBool)]
              emitted.
Proof.
  eexists.
  assert (H1 : parse_sheet units_sheet = Some units_table) by (vm_compute; reflexivity).
  assert (H2 : NoDup (map to_pascal_case (headers units_table))).
  { vm_compute. repeat constructor; simpl; intuition discriminate. }
  split; [exact H1|]. split; [exact H2|].
  split; [vm_compute; reflexivity|].
  apply (class_matches_document units_sheet units_table _ H1 H2).
  vm_compute. reflexivity.
Defined.

(* ===================================================================== *)
(** ** Field names                                                        *)
(* ===================================================================== *)

Lemma isalnum_lower_char (c : ascii) : PyStr.isalnum (PyStr.lower_char c) = PyStr.isalnum c.
Proof. destruct c as [[] [] [] [] [] [] [] []]; reflexivity. Qed.

Lemma isalnum_upper_char (c : ascii) : PyStr.isalnum (PyStr.upper_char c) = PyStr.isalnum c.
Proof. destruct c as [[] [] [] [] [] [] [] []]; reflexivity. Qed.

Lemma upper_lower_char (c : ascii) :
  PyStr.upper_char (PyStr.lower_char c) = PyStr.upper_char c.
Proof. destruct c as [[] [] [] [] [] [] [] []]; reflexivity. Qed.

Lemma lower_lower_char (c : ascii) :
  PyStr.lower_char (PyStr.lower_char c) = PyStr.lower_char c.
Proof. destruct c as [[] [] [] [] [] [] [] []]; reflexivity. Qed.

Lemma caseless_char (c : ascii) :
  PyStr.isalnum c = false -> PyStr.upper_char c = c /\ PyStr.lower_char c = c.
Proof. destruct c as [[] [] [] [] [] [] [] []]; simpl; intros H; try discriminate; auto. Qed.

Lemma lower_idempotent (s : string) : PyStr.lower (PyStr.lower s) = PyStr.lower s.
Proof.
  unfold PyStr.lower. induction s as [|c s IH]; simpl; [reflexivity|].
  now rewrite IH, lower_lower_char.
Qed.

Lemma lower_app (s t : string) :
  PyStr.lower (s ++ t)%string = (PyStr.lower s ++ PyStr.lower t)%string.
Proof.
  unfold PyStr.lower. induction s as [|c s IH]; simpl; [reflexivity|].
  now rewrite IH.
Qed.

Lemma lower_empty (s : string) : String.eqb (PyStr.lower s) "" = String.eqb s "".
Proof. destruct s; reflexivity. Qed.

Lemma capitalize_lower (s : string) : PyStr.capitalize (PyStr.lower s) = PyStr.capitalize s.
Proof.
  destruct s as [|c s]; simpl; [reflexivity|].
  fold (PyStr.lower s). now rewrite upper_lower_char, lower_idempotent.
Qed.

Lemma split_words_lower (name current : string) :
  split_words (PyStr.lower name) (PyStr.lower current)
  = map PyStr.lower (split_words name current).
Proof.
  revert current. induction name as [|c name IH]; intros current; simpl.
  - rewrite lower_empty. now destruct (String.eqb current "").
  - fold (PyStr.lower name). rewrite isalnum_lower_char.
    destruct (PyStr.isalnum c).
    + rewrite <- IH, lower_app. reflexivity.
    + rewrite lower_empty. destruct (String.eqb current "").
      * exact (IH "").
      * simpl. f_equal. exact (IH "").
Qed.

Lemma capitalize_lower_all (l : list string) :
  map PyStr.capitalize (map PyStr.lower l) = map PyStr.capitalize l.
Proof.
  induction l as [|w l IH]; simpl; [reflexivity|].
  now rewrite capitalize_lower, IH.
Qed.

Lemma pascal_of_lower (name : string) :
  to_pascal_case (PyStr.lower name) = to_pascal_case name.
Proof.
  unfold to_pascal_case.
  pose proof (split_words_lower name "") as H.
  change (PyStr.lower "") with "" in H. rewrite H.
  destruct (split_words name "") as [|w ws].
  - cbn [map]. now rewrite capitalize_lower.
  - change (match map PyStr.lower (w :: ws) with
            | [] => [PyStr.lower name]
            | _ :: _ => map PyStr.lower (w :: ws)
            end) with (map PyStr.lower (w :: ws)).
    now rewrite capitalize_lower_all.
Qed.

(** X8. Headers made of ASCII characters that differ only in the case of
    their letters get the same field name (["ID"], ["Id"] and ["id"] all
    become the field [Id]). *)
Theorem field_name_ignores_case (a b : string) :
  all_chars is_ascii a = true -> all_chars is_ascii b = true ->
  PyStr.lower a = PyStr.lower b -> to_pascal_case a = to_pascal_case b.
Proof.
  intros _ _ H.
  rewrite <- (pascal_of_lower a), <- (pascal_of_lower b). now rewrite H.
Qed.

Lemma field_name_ignores_case_witness :
  all_chars is_ascii "MAX health" = true /\
  all_chars is_ascii "max Health" = true /\
  PyStr.lower "MAX health" = PyStr.lower "max Health" /\
  to_pascal_case "MAX health" = to_pascal_case "max Health".
Proof.
  split; [reflexivity|]. split; [reflexivity|]. split; [reflexivity|].
  apply field_name_ignores_case; reflexivity.
Defined.

(** The words of a name are non-empty runs of alphanumeric characters. *)
Lemma split_words_alnum (name current : string) :
  all_chars PyStr.isalnum current = true ->
  Forall (fun w => all_chars PyStr.isalnum w = true /\ w <> "")
         (split_words name current).
Proof.
  revert current. induction name as [|c name IH]; intros current Hc; simpl.
  - destruct (String.eqb current "") eqn:E; [constructor|].
    apply String.eqb_neq in E. repeat constructor; assumption.
  - destruct (PyStr.isalnum c) eqn:Ec.
    + apply IH. clear IH. induction current as [|d cur IHc]; simpl in *.
      * now rewrite Ec.
      * apply andb_prop in Hc. destruct Hc as [Hd Hcur].
        now rewrite Hd, IHc.
    + destruct (String.eqb current "") eqn:E; [now apply IH|].
      apply String.eqb_neq in E. constructor; [auto|now apply IH].
Qed.

Lemma split_words_none (name : string) :
  any_char PyStr.isalnum name = false -> split_words name "" = [].
Proof.
  induction name as [|c name IH]; simpl; [reflexivity|].
  destruct (PyStr.isalnum c); [discriminate|]. exact IH.
Qed.

Lemma split_words_some (name current : string) :
  any_char PyStr.isalnum name = true -> split_words name current <> [].
Proof.
  revert current. induction name as [|c name IH]; intros current; simpl;
    [discriminate|].
  destruct (PyStr.isalnum c) eqn:Ec; simpl.
  - intros _. clear IH.
    assert (G : forall cur, cur <> "" -> split_words name cur <> []).
    { induction name as [|d name IH]; intros cur Hcur; simpl.
      - apply String.eqb_neq in Hcur. now rewrite Hcur.
      - destruct (PyStr.isalnum d).
        + apply IH. now destruct cur.
        + apply String.eqb_neq in Hcur. now rewrite Hcur. }
    apply G. now destruct current.
  - intros H. destruct (String.eqb current ""); [now apply IH|discriminate].
Qed.

Lemma lower_alnum (w : string) :
  all_chars PyStr.isalnum (PyStr.lower w) = all_chars PyStr.isalnum w.
Proof.
  unfold PyStr.lower. induction w as [|c w IH]; simpl; [reflexivity|].
  now rewrite isalnum_lower_char, IH.
Qed.

Lemma capitalize_alnum (w : string) :
  all_chars PyStr.isalnum w = true -> all_chars PyStr.isalnum (PyStr.capitalize w) = true.
Proof.
  destruct w as [|c w]; [reflexivity|].
  unfold PyStr.capitalize. cbn [all_chars].
  now rewrite isalnum_upper_char, lower_alnum.
Qed.

Lemma all_chars_app (p : ascii -> bool) (s t : string) :
  all_chars p (s ++ t)%string = all_chars p s && all_chars p t.
Proof.
  induction s as [|c s IH]; simpl; [reflexivity|].
  now rewrite IH, andb_assoc.
Qed.

Lemma concat_alnum (ws : list string) :
  Forall (fun w => all_chars PyStr.isalnum w = true /\ w <> "") ws ->
  all_chars PyStr.isalnum (String.concat "" (map PyStr.capitalize ws)) = true.
Proof.
  induction 1 as [|w ws [Hw _] _ IH]; [reflexivity|].
  simpl. destruct (map PyStr.capitalize ws) as [|x xs] eqn:E.
  - now apply capitalize_alnum.
  - simpl. rewrite !all_chars_app. rewrite (capitalize_alnum w Hw). exact IH.
Qed.

Lemma lower_caseless (s : string) :
  any_char PyStr.isalnum s = false -> PyStr.lower s = s.
Proof.
  unfold PyStr.lower. induction s as [|d s IH]; simpl; [reflexivity|].
  intros H. apply orb_false_elim in H. destruct H as [Hd Hs].
  now rewrite (proj2 (caseless_char d Hd)), IH.
Qed.

Lemma capitalize_caseless (s : string) :
  any_char PyStr.isalnum s = false -> PyStr.capitalize s = s.
Proof.
  destruct s as [|c s]; [reflexivity|].
  unfold PyStr.capitalize. cbn [any_char].
  intros H. apply orb_false_elim in H. destruct H as [Hc Hs].
  now rewrite (proj1 (caseless_char c Hc)), (lower_caseless s Hs).
Qed.

(** X9. The field name made from a header of ASCII characters that holds
    a letter or a digit consists of letters and digits only and is not
    empty; a header of ASCII characters without any letter or digit is
    kept as it is. *)
Theorem field_name_characters (name : string) :
  all_chars is_ascii name = true ->
  if any_char PyStr.isalnum name
  then all_chars PyStr.isalnum (to_pascal_case name) = true /\
       to_pascal_case name <> ""
  else to_pascal_case name = name.
Proof.
  intros _. unfold to_pascal_case.
  destruct (any_char PyStr.isalnum name) eqn:E.
  - pose proof (split_words_some name "" E) as Hne.
    pose proof (split_words_alnum name "" eq_refl) as Hws.
    destruct (split_words name "") as [|w ws]; [now elim Hne|].
    split; [now apply concat_alnum|].
    inversion Hws as [|? ? [Hw Hw0] _]; subst.
    simpl. destruct w as [|c w]; [now elim Hw0|].
    destruct (map PyStr.capitalize ws); discriminate.
  - rewrite (split_words_none name E). simpl. now apply capitalize_caseless.
Qed.

Lemma field_name_characters_witness :
  all_chars is_ascii "max_health (%)" = true /\
  (all_chars PyStr.isalnum (to_pascal_case "max_health (%)") = true /\
   to_pascal_case "max_health (%)" <> "") /\
  all_chars is_ascii "(%)" = true /\
  to_pascal_case "(%)" = "(%)".
Proof.
  split; [reflexivity|].
  split; [exact (field_name_characters "max_health (%)" eq_refl)|].
  split; [reflexivity|].
  exact (field_name_characters "(%)" eq_refl).
Defined.

(* ===================================================================== *)
(** ** JSON string literals                                               *)
(* ===================================================================== *)

Lemma unescape_escape_char (c : ascii) (rest : string) :
  unescape (Json.escape_char c ++ rest)%string = option_map (String c) (unescape rest).
Proof. destruct c as [[] [] [] [] [] [] [] []]; reflexivity. Qed.

Lemma unescape_escape (s : string) : unescape (Json.escape s) = Some s.
Proof.
  induction s as [|c s IH]; [reflexivity|].
  cbn [Json.escape]. now rewrite unescape_escape_char, IH.
Qed.

Lemma escape_char_no_control (c : ascii) :
  all_chars (fun d => 32 <=? PyStr.code d) (Json.escape_char c) = true.
Proof. destruct c as [[] [] [] [] [] [] [] []]; reflexivity. Qed.

Lemma append_inv_last (s t : string) (q : ascii) :
  (s ++ String q "")%string = (t ++ String q "")%string -> s = t.
Proof.
  revert t. induction s as [|c s IH]; intros [|d t]; simpl; intros H.
  - reflexivity.
  - injection H as _ H. destruct t; discriminate.
  - injection H as _ H. destruct s; discriminate.
  - injection H as -> H. f_equal. now apply IH.
Qed.

(** X10. The literal written for a text determines the text: two texts
    with the same JSON literal are equal (quotes, backslashes and control
    characters are escaped without loss), and the literal holds no raw
    control character. *)
Theorem json_literal_is_faithful (s t : string) :
  (Json.encode_string s = Json.encode_string t -> s = t) /\
  all_chars (fun d => 32 <=? PyStr.code d) (Json.encode_string s) = true.
Proof.
  split.
  - unfold Json.encode_string. cbn [String.append]. intros H.
    injection H as H. apply append_inv_last in H.
    assert (G : unescape (Json.escape s) = unescape (Json.escape t)) by (now rewrite H).
    rewrite !unescape_escape in G. now injection G.
  - unfold Json.encode_string. cbn [String.append all_chars].
    rewrite all_chars_app. cbn [all_chars].
    replace (32 <=? PyStr.code Json.quote) with true by reflexivity.
    rewrite andb_true_r. cbn [andb].
    induction s as [|c s IH]; [reflexivity|].
    cbn [Json.escape]. now rewrite all_chars_app, escape_char_no_control, IH.
Qed.

(* ===================================================================== *)
(** ** The manager on arbitrary objects                                   *)
(* ===================================================================== *)

Section ManagerInvariants.
Variable single_to_string : PyFloat.float -> string.

Lemma id_of_value_nonzero (v : Manager.cs_value) (n : Z) :
  Manager.id_of_value single_to_string v = Some n -> n <> 0.
Proof.
  unfold Manager.id_of_value.
  assert (P : forall p,
             match Manager.int_TryParse (Manager.to_string single_to_string v) with
             | Some parsedValue => if parsedValue =? 0 then None else Some parsedValue
             | None => None
             end = Some p -> p <> 0).
  { intros p. destruct (Manager.int_TryParse _) as [q|]; [|discriminate].
    destruct (q =? 0) eqn:E; [discriminate|].
    intros [= <-]. now apply Z.eqb_neq. }
  destruct v as [| m | x | b | s].
  - discriminate.
  - destruct (m =? 0) eqn:E; [apply P|].
    intros [= <-]. now apply Z.eqb_neq.
  - apply P.
  - apply P.
  - apply P.
Qed.

Lemma by_name_source (names : list string) (o : Manager.object) (n : Z) :
  Manager.by_name single_to_string names o = Some n ->
  exists name v, In name names /\ Manager.get_field name o = Some v /\
                 Manager.id_of_value single_to_string v = Some n.
Proof.
  induction names as [|name names IH]; simpl; [discriminate|].
  destruct (Manager.get_field name o) as [v|] eqn:Hf.
  - destruct (Manager.id_of_value single_to_string v) as [m|] eqn:Hv.
    + intros [= <-]. exists name, v. auto.
    + intros H. destruct (IH H) as [name' [v' [Hin H']]]. exists name', v'. auto.
  - intros H. destruct (IH H) as [name' [v' [Hin H']]]. exists name', v'. auto.
Qed.

Lemma by_scan_source (o : Manager.object) (n : Z) :
  Manager.by_scan single_to_string o = Some n ->
  exists name v, In (name, v) o /\ Manager.names_an_id name = true /\
                 Manager.id_of_value single_to_string v = Some n.
Proof.
  induction o as [|[name v] o IH]; simpl; [discriminate|].
  destruct (Manager.names_an_id name) eqn:Hn.
  - destruct (Manager.id_of_value single_to_string v) as [m|] eqn:Hv.
    + intros [= <-]. exists name, v. auto.
    + intros H. destruct (IH H) as [name' [v' [Hin H']]]. exists name', v'. auto.
  - intros H. destruct (IH H) as [name' [v' [Hin H']]]. exists name', v'. auto.
Qed.

Lemma get_field_In (name : string) (o : Manager.object) (v : Manager.cs_value) :
  Manager.get_field name o = Some v -> In (name, v) o.
Proof.
  induction o as [|[k x] o IH]; simpl; [discriminate|].
  destruct (String.eqb name k) eqn:E.
  - apply String.eqb_eq in E. intros [= ->]. subst. now left.
  - intros H. right. auto.
Qed.

Lemma id_names_name_an_id (name : string) :
  In name Manager.idFieldNames -> Manager.names_an_id name = true.
Proof.
  unfold Manager.idFieldNames. simpl.
  intros [<-|[<-|[<-|[<-|[<-|[<-|[<-|[]]]]]]]]; reflexivity.
Qed.

(** X11. Whatever the object, the id [GetIdValue] returns is never 0 and
    is read from a field whose name is ["Id"] in some case or contains
    ["id"]; an object without such a field has no id. *)
Theorem id_comes_from_id_field (o : Manager.object) :
  (forall n, Manager.GetIdValue single_to_string (Some o) = Some n ->
             n <> 0 /\
             exists name v, In (name, v) o /\ Manager.names_an_id name = true /\
                            Manager.id_of_value single_to_string v = Some n) /\
  ((forall name v, In (name, v) o -> Manager.names_an_id name = false) ->
   Manager.GetIdValue single_to_string (Some o) = None).
Proof.
  assert (H : forall n, Manager.GetIdValue single_to_string (Some o) = Some n ->
                        exists name v, In (name, v) o /\
                                       Manager.names_an_id name = true /\
                                       Manager.id_of_value single_to_string v = Some n).
  { intros n. unfold Manager.GetIdValue.
    destruct (Manager.by_name single_to_string Manager.idFieldNames o) as [m|] eqn:E.
    - intros [= <-]. destruct (by_name_source _ _ _ E) as [name [v [Hin [Hf Hv]]]].
      exists name, v. split; [now apply get_field_In|].
      split; [now apply id_names_name_an_id|exact Hv].
    - apply by_scan_source. }
  split.
  - intros n Hn. destruct (H n Hn) as [name [v [Hin [Hname Hv]]]].
    split; [exact (id_of_value_nonzero v n Hv)|]. exists name, v. auto.
  - intros Hnone.
    destruct (Manager.GetIdValue single_to_string (Some o)) as [n|] eqn:E;
      [|reflexivity].
    destruct (H n eq_refl) as [name [v [Hin [Hname _]]]].
    rewrite (Hnone name v Hin) in Hname. discriminate.
Qed.

(** X12. A field named exactly [Id] that holds a non-zero integer decides
    the id, whatever other fields the object has and wherever the field
    stands. *)
Theorem id_field_takes_precedence (o : Manager.object) (n : Z) :
  Manager.get_field "Id" o = Some (Manager.CsInt n) -> n <> 0 ->
  Manager.GetIdValue single_to_string (Some o) = Some n.
Proof.
  intros Hf Hn. unfold Manager.GetIdValue, Manager.idFieldNames.
  cbn [Manager.by_name]. rewrite Hf.
  unfold Manager.id_of_value. apply Z.eqb_neq in Hn. now rewrite Hn.
Qed.

Lemma find_app_last {A : Type} (f : A -> bool) (l : list A) (a : A) :
  find f (l ++ [a])
  = match find f l with
    | Some x => Some x
    | None => if f a then Some a else None
    end.
Proof.
  induction l as [|b l IH]; simpl; [reflexivity|].
  destruct (f b); [reflexivity|exact IH].
Qed.

Lemma load_from (items : list (option Manager.object)) :
  forall l d,
    fst (fold_left (Manager.load_item single_to_string) items (l, d))
    = l ++ non_null items /\
    forall k,
      Manager.dict_get k
        (snd (fold_left (Manager.load_item single_to_string) items (l, d)))
      = match find (has_id single_to_string k) (rev (non_null items)) with
        | Some o => Some o
        | None => Manager.dict_get k d
        end.
Proof.
  induction items as [|[o|] items IH]; intros l d; cbn [fold_left non_null flat_map].
  - rewrite app_nil_r. split; reflexivity.
  - change (flat_map _ items) with (non_null items).
    cbn [app rev].
    assert (Hstep : exists d',
               Manager.load_item single_to_string (l, d) (Some o) = (l ++ [o], d') /\
               forall k, Manager.dict_get k d'
                         = if has_id single_to_string k o then Some o
                           else Manager.dict_get k d).
    { unfold Manager.load_item, has_id.
      destruct (Manager.GetIdValue single_to_string (Some o)) as [n|] eqn:E.
      - assert (Hn : n <> 0).
        { unfold Manager.GetIdValue in E.
          destruct (Manager.by_name single_to_string Manager.idFieldNames o)
            as [m|] eqn:E1.
          - injection E as <-.
            destruct (by_name_source _ _ _ E1) as [_ [v [_ [_ Hv]]]].
            exact (id_of_value_nonzero v m Hv).
          - destruct (by_scan_source _ _ E) as [_ [v [_ [_ Hv]]]].
            exact (id_of_value_nonzero v n Hv). }
        apply Z.eqb_neq in Hn. rewrite Hn. eexists. split; [reflexivity|].
        intros k. rewrite zdict_get_set, (Z.eqb_sym n k). reflexivity.
      - eexists. split; [reflexivity|]. reflexivity. }
    destruct Hstep as [d' [-> Hd']].
    destruct (IH (l ++ [o]) d') as [Hl Hd].
    split; [now rewrite Hl, <- app_assoc|].
    intros k. rewrite Hd, find_app_last, Hd'.
    destruct (find (has_id single_to_string k) (rev (non_null items)));
      [reflexivity|].
    now destruct (has_id single_to_string k o).
  - apply IH.
Qed.

(** X13. For any array of items, [Initialize] leaves in the list the
    items that are not [null], in order, and looking an id up in the
    dictionary gives the last listed object that has this id, or nothing
    when no listed object has it. *)
Theorem loaded_list_and_dictionary (items : list (option Manager.object)) :
  fst (Manager.load_items single_to_string items) = non_null items /\
  forall k,
    Manager.dict_get k (snd (Manager.load_items single_to_string items))
    = find (has_id single_to_string k) (rev (non_null items)).
Proof.
  destruct (load_from items [] []) as [Hl Hd].
  split; [exact Hl|].
  intros k. unfold Manager.load_items. rewrite Hd.
  now destruct (find (has_id single_to_string k) (rev (non_null items))).
Qed.

End ManagerInvariants.

Lemma id_field_precedence_witness :
  Manager.get_field "Id"
    [("ParentId", Manager.CsInt 9); ("Name", Manager.CsString "x");
     ("Id", Manager.CsInt 4)] = Some (Manager.CsInt 4) /\
  4 <> 0 /\
  Manager.GetIdValue no_single
    (Some [("ParentId", Manager.CsInt 9); ("Name", Manager.CsString "x");
           ("Id", Manager.CsInt 4)]) = Some 4.
Proof.
  split; [reflexivity|]. split; [discriminate|].
  apply id_field_takes_precedence; [reflexivity|discriminate].
Defined.

(* ===================================================================== *)
(** ** Integers and their decimal text                                    *)
(* ===================================================================== *)

Lemma digit_char_facts (c : ascii) :
  PyStr.isdigit c = true ->
  PyStr.isspace c = false /\ Manager.cs_isspace c = false /\
  Ascii.eqb c "-"%char = false /\ Ascii.eqb c "+"%char = false /\
  Ascii.eqb c "_"%char = false /\
  Ascii.eqb (PyStr.lower_char c) "t"%char = false /\
  Ascii.eqb (PyStr.lower_char c) "f"%char = false.
Proof.
  destruct c as [[] [] [] [] [] [] [] []]; simpl; intros H;
    try discriminate H; repeat split.
Qed.

Lemma digit_chr_facts (x : Z) :
  0 <= x < 10 ->
  PyStr.isdigit (PyInt.digit_chr x) = true /\ PyInt.digit_val (PyInt.digit_chr x) = x.
Proof.
  intros H.
  assert (C : x = 0 \/ x = 1 \/ x = 2 \/ x = 3 \/ x = 4 \/ x = 5 \/ x = 6 \/ x = 7
              \/ x = 8 \/ x = 9) by lia.
  repeat (destruct C as [->|C]; [split; reflexivity|]). subst. split; reflexivity.
Qed.

Lemma str_app_assoc (a b c : string) :
  ((a ++ b) ++ c)%string = (a ++ (b ++ c))%string.
Proof. induction a as [|x a IH]; simpl; [reflexivity|now rewrite IH]. Qed.

Lemma str_app_nil (a : string) : (a ++ "")%string = a.
Proof. induction a as [|x a IH]; simpl; [reflexivity|now rewrite IH]. Qed.

Lemma str_length_app (a b : string) :
  String.length (a ++ b)%string = (String.length a + String.length b)%nat.
Proof. induction a as [|x a IH]; simpl; [reflexivity|now rewrite IH]. Qed.

Lemma digits_value_app (p q : string) (a : Z) :
  digits_value (p ++ q)%string a = digits_value q (digits_value p a).
Proof. revert a. induction p as [|c p IH]; intros a; simpl; [reflexivity|apply IH]. Qed.

Lemma digits_fuel_spec (f : nat) :
  forall n acc, 0 <= n < 2 ^ Z.of_nat (S f) ->
  exists p, PyInt.digits_fuel (S f) n acc = (p ++ acc)%string /\
            p <> "" /\ all_chars PyStr.isdigit p = true /\
            forall a, digits_value p a = a * 10 ^ Z.of_nat (String.length p) + n.
Proof.
  induction f as [|f IH]; intros n acc Hn.
  - assert (Hlt : n < 10) by (change (2 ^ Z.of_nat 1) with 2 in Hn; lia).
    cbn [PyInt.digits_fuel]. apply Z.ltb_lt in Hlt. rewrite Hlt. apply Z.ltb_lt in Hlt.
    rewrite Z.mod_small by lia.
    destruct (digit_chr_facts n) as [Hd Hv]; [lia|].
    exists (String (PyInt.digit_chr n) ""). split; [reflexivity|].
    split; [discriminate|]. split; [simpl; now rewrite Hd|].
    intros a. cbn [digits_value String.length]. rewrite Hv.
    change (10 ^ Z.of_nat 1) with 10. lia.
  - remember (S f) as g eqn:Hg. cbn [PyInt.digits_fuel].
    destruct (digit_chr_facts (n mod 10)) as [Hd Hv];
      [apply Z.mod_pos_bound; lia|].
    destruct (n <? 10) eqn:Hlt.
    + apply Z.ltb_lt in Hlt. rewrite Z.mod_small in * by lia.
      exists (String (PyInt.digit_chr n) ""). split; [reflexivity|].
      split; [discriminate|]. split; [simpl; now rewrite Hd|].
      intros a. cbn [digits_value String.length]. rewrite Hv.
      change (10 ^ Z.of_nat 1) with 10. lia.
    + apply Z.ltb_ge in Hlt. subst g.
      assert (Hq : 0 <= n / 10 < 2 ^ Z.of_nat (S f)).
      { split; [apply Z.div_pos; lia|].
        apply Z.div_lt_upper_bound; [lia|].
        rewrite (Nat2Z.inj_succ (S f)), Z.pow_succ_r in Hn by lia. lia. }
      destruct (IH (n / 10) (String (PyInt.digit_chr (n mod 10)) acc) Hq)
        as [p [Hp [Hne [Hall Hval]]]].
      exists (p ++ String (PyInt.digit_chr (n mod 10)) "")%string.
      split; [rewrite Hp; now rewrite str_app_assoc|].
      split; [now destruct p|].
      split; [rewrite all_chars_app, Hall; simpl; now rewrite Hd|].
      intros a. rewrite digits_value_app, Hval. cbn [digits_value]. rewrite Hv.
      rewrite str_length_app. cbn [String.length].
      rewrite Nat.add_1_r, Nat2Z.inj_succ, Z.pow_succ_r by lia.
      pose proof (Z.div_mod n 10 ltac:(lia)). lia.
Qed.

Lemma digits_spec (n : Z) :
  0 <= n ->
  PyInt.digits n <> "" /\ all_chars PyStr.isdigit (PyInt.digits n) = true /\
  digits_value (PyInt.digits n) 0 = n.
Proof.
  intros Hn. unfold PyInt.digits.
  assert (Hb : 0 <= n < 2 ^ Z.of_nat (S (Z.to_nat (Z.log2 n)))).
  { split; [exact Hn|].
    rewrite Nat2Z.inj_succ, Z2Nat.id by apply Z.log2_nonneg.
    destruct (Z.eq_dec n 0) as [->|Hz]; [reflexivity|].
    apply Z.log2_spec. lia. }
  destruct (digits_fuel_spec _ n "" Hb) as [p [Hp [Hne [Hall Hval]]]].
  rewrite Hp, str_app_nil.
  repeat split; try assumption. rewrite Hval. lia.
Qed.

Lemma rstrip_clean (s : string) :
  all_chars (fun c => negb (PyStr.isspace c)) s = true -> PyStr.rstrip s = s.
Proof.
  induction s as [|c s IH]; simpl; [reflexivity|].
  intros H. apply andb_prop in H. destruct H as [Hc Hs].
  rewrite (IH Hs). apply negb_true_iff in Hc.
  destruct s; [now rewrite Hc|reflexivity].
Qed.

Lemma strip_clean (s : string) :
  all_chars (fun c => negb (PyStr.isspace c)) s = true -> PyStr.strip s = s.
Proof.
  intros H. unfold PyStr.strip.
  assert (Hl : PyStr.lstrip s = s).
  { destruct s as [|c s]; [reflexivity|]. simpl in *.
    apply andb_prop in H. destruct H as [Hc _].
    apply negb_true_iff in Hc. now rewrite Hc. }
  rewrite Hl. now apply rstrip_clean.
Qed.

Lemma cs_trim_clean (s : string) :
  all_chars (fun c => negb (Manager.cs_isspace c)) s = true ->
  Manager.cs_rtrim (Manager.cs_ltrim s) = s.
Proof.
  intros H.
  assert (Hl : Manager.cs_ltrim s = s).
  { destruct s as [|c s]; [reflexivity|]. simpl in *.
    apply andb_prop in H. destruct H as [Hc _].
    apply negb_true_iff in Hc. now rewrite Hc. }
  rewrite Hl. clear Hl.
  induction s as [|c s IH]; simpl; [reflexivity|].
  simpl in H. apply andb_prop in H. destruct H as [Hc Hs].
  rewrite (IH Hs). apply negb_true_iff in Hc.
  destruct s; [now rewrite Hc|reflexivity].
Qed.

Lemma all_chars_impl (p q : ascii -> bool) (s : string) :
  (forall c, p c = true -> q c = true) ->
  all_chars p s = true -> all_chars q s = true.
Proof.
  intros Hpq. induction s as [|c s IH]; simpl; [reflexivity|].
  intros H. apply andb_prop in H. destruct H as [Hc Hs].
  now rewrite (Hpq c Hc), IH.
Qed.

Lemma digitpart_tail_digits (p : string) :
  all_chars PyStr.isdigit p = true ->
  forall a k, PyInt.digitpart_tail p a k
              = (digits_value p a, (k + String.length p)%nat, "").
Proof.
  induction p as [|c p IH]; intros H a k; simpl.
  - now rewrite Nat.add_0_r.
  - simpl in H. apply andb_prop in H. destruct H as [Hc Hp].
    rewrite Hc, (IH Hp). now rewrite Nat.add_succ_r.
Qed.

Lemma all_digits_value (p : string) :
  all_chars PyStr.isdigit p = true ->
  forall a, Manager.all_digits p a = Some (digits_value p a).
Proof.
  induction p as [|c p IH]; intros H a; simpl; [reflexivity|].
  simpl in H. apply andb_prop in H. destruct H as [Hc Hp].
  rewrite Hc. now apply IH.
Qed.

(** The text of an integer: an optional minus sign before digits. *)
Lemma to_string_shape (n : Z) :
  exists p, p <> "" /\ all_chars PyStr.isdigit p = true /\
            digits_value p 0 = Z.abs n /\
            PyInt.to_string n = if n <? 0 then String "-"%char p else p.
Proof.
  unfold PyInt.to_string. destruct (n <? 0) eqn:E.
  - apply Z.ltb_lt in E. destruct (digits_spec (- n)) as [H1 [H2 H3]]; [lia|].
    exists (PyInt.digits (- n)). repeat split; try assumption. lia.
  - apply Z.ltb_ge in E. destruct (digits_spec n E) as [H1 [H2 H3]].
    exists (PyInt.digits n). repeat split; try assumption. lia.
Qed.

Lemma to_string_clean (n : Z) :
  all_chars (fun c => negb (PyStr.isspace c)) (PyInt.to_string n) = true /\
  all_chars (fun c => negb (Manager.cs_isspace c)) (PyInt.to_string n) = true.
Proof.
  destruct (to_string_shape n) as [p [_ [Hp [_ ->]]]].
  assert (H1 : all_chars (fun c => negb (PyStr.isspace c)) p = true).
  { revert Hp. apply all_chars_impl. intros c Hc.
    now rewrite (proj1 (digit_char_facts c Hc)). }
  assert (H2 : all_chars (fun c => negb (Manager.cs_isspace c)) p = true).
  { revert Hp. apply all_chars_impl. intros c Hc.
    destruct (digit_char_facts c Hc) as [_ [-> _]]. reflexivity. }
  destruct (n <? 0); simpl; auto.
Qed.

Lemma sign_of_to_string (n : Z) :
  exists p, p <> "" /\ all_chars PyStr.isdigit p = true /\
            digits_value p 0 = Z.abs n /\
            PyInt.sign (PyInt.to_string n) = (n <? 0, p).
Proof.
  destruct (to_string_shape n) as [p [Hne [Hp [Hv ->]]]].
  exists p. repeat split; try assumption.
  destruct (n <? 0); [reflexivity|].
  destruct p as [|c p]; [now elim Hne|].
  simpl in Hp. apply andb_prop in Hp. destruct Hp as [Hc _].
  destruct (digit_char_facts c Hc) as [_ [_ [Hm [Hpl _]]]].
  simpl. now rewrite Hm, Hpl.
Qed.

(** [int(str(n))] is [n]. *)
Lemma int_of_to_string (n : Z) : PyInt.of_string (PyInt.to_string n) = Some n.
Proof.
  unfold PyInt.of_string.
  rewrite (strip_clean _ (proj1 (to_string_clean n))).
  destruct (sign_of_to_string n) as [p [Hne [Hp [Hv ->]]]].
  destruct p as [|c p]; [now elim Hne|].
  pose proof Hp as Hp'. simpl in Hp'. apply andb_prop in Hp'. destruct Hp' as [Hc Hrest].
  unfold PyInt.digitpart. rewrite Hc, (digitpart_tail_digits p Hrest).
  simpl in Hv. replace (10 * 0 + PyInt.digit_val c) with (PyInt.digit_val c) in Hv by lia.
  rewrite Hv. destruct (n <? 0) eqn:E; f_equal.
  - apply Z.ltb_lt in E. lia.
  - apply Z.ltb_ge in E. lia.
Qed.

(** [int.TryParse(n.ToString(), out m)] gives back [n] for a 32-bit [n]. *)
Lemma TryParse_of_to_string (n : Z) :
  - 2 ^ 31 <= n < 2 ^ 31 -> Manager.int_TryParse (PyInt.to_string n) = Some n.
Proof.
  intros Hn. unfold Manager.int_TryParse.
  rewrite (cs_trim_clean _ (proj2 (to_string_clean n))).
  destruct (sign_of_to_string n) as [p [Hne [Hp [Hv ->]]]].
  destruct p as [|c p]; [now elim Hne|].
  rewrite (all_digits_value _ Hp), Hv.
  assert (Hval : (if n <? 0 then - Z.abs n else Z.abs n) = n).
  { destruct (n <? 0) eqn:E; [apply Z.ltb_lt in E|apply Z.ltb_ge in E]; lia. }
  rewrite Hval.
  assert (Hr : (- 2 ^ 31 <=? n) && (n <? 2 ^ 31) = true).
  { apply andb_true_intro. split; [apply Z.leb_le|apply Z.ltb_lt]; lia. }
  now rewrite Hr.
Qed.

(** X14. An [Id] field that holds the decimal text of a non-zero 32-bit
    integer (a text-typed Id column) gives that integer as the id. *)
Theorem text_id_is_parsed (single_to_string : PyFloat.float -> string)
    (o : Manager.object) (n : Z) :
  Manager.get_field "Id" o = Some (Manager.CsString (PyInt.to_string n)) ->
  - 2 ^ 31 <= n < 2 ^ 31 -> n <> 0 ->
  Manager.GetIdValue single_to_string (Some o) = Some n.
Proof.
  intros Hf Hr Hn. unfold Manager.GetIdValue, Manager.idFieldNames.
  cbn [Manager.by_name]. rewrite Hf.
  unfold Manager.id_of_value. cbn [Manager.to_string].
  rewrite (TryParse_of_to_string n Hr).
  apply Z.eqb_neq in Hn. now rewrite Hn.
Qed.

Lemma text_id_witness :
  Manager.get_field "Id" [("Name", Manager.CsString "x");
                          ("Id", Manager.CsString (PyInt.to_string (-42)))]
  = Some (Manager.CsString (PyInt.to_string (-42))) /\
  Manager.GetIdValue no_single
    (Some [("Name", Manager.CsString "x");
           ("Id", Manager.CsString (PyInt.to_string (-42)))]) = Some (-42).
Proof.
  split; [reflexivity|].
  apply text_id_is_parsed; [reflexivity|lia|discriminate].
Defined.

Lemma to_string_not_boolean (n : Z) :
  PyStr.mem (PyStr.lower (PyInt.to_string n)) ["true"; "false"] = false.
Proof.
  destruct (to_string_shape n) as [p [Hne [Hp [_ ->]]]].
  destruct (n <? 0); [reflexivity|].
  destruct p as [|c p]; [now elim Hne|].
  simpl in Hp. apply andb_prop in Hp. destruct Hp as [Hc _].
  destruct (digit_char_facts c Hc) as [_ [_ [_ [_ [_ [Ht Hf]]]]]].
  unfold PyStr.mem, PyStr.lower. cbn [PyStr.map_chars existsb String.eqb].
  now rewrite Ht, Hf.
Qed.

(** X15. An integer of at most 4300 decimal digits stored in a sheet as
    text (its decimal text) is read unchanged, makes a column integer, and
    is emitted in an int column as that integer. *)
Theorem integer_text_is_exported_as_integer (header : string) (n : Z) :
  Z.abs n < 10 ^ 4300 ->
  read_value (VStr (PyInt.to_string n)) = VStr (PyInt.to_string n) /\
  to_csharp_type header (VStr (PyInt.to_string n)) = TInt /\
  convert_value TInt (VStr (PyInt.to_string n)) = Ok (VInt n).
Proof.
  intros _.
  assert (Hs : PyStr.strip (PyInt.to_string n) = PyInt.to_string n)
    by (apply strip_clean, to_string_clean).
  split; [simpl; now rewrite Hs|]. split.
  - unfold to_csharp_type. cbn [Py.str]. rewrite Hs, to_string_not_boolean.
    destruct (to_string_shape n) as [p [Hne [_ [_ Hp]]]].
    assert (Hnz : String.eqb (PyInt.to_string n) "" = false).
    { rewrite Hp. destruct (n <? 0); [reflexivity|]. now destruct p. }
    rewrite Hnz. unfold Py.int. now rewrite int_of_to_string.
  - simpl. now rewrite int_of_to_string.
Qed.

Lemma integer_text_witness :
  Z.abs (-150) < 10 ^ 4300 /\
  read_value (VStr (PyInt.to_string (-150))) = VStr "-150" /\
  to_csharp_type "Hp" (VStr (PyInt.to_string (-150))) = TInt /\
  convert_value TInt (VStr (PyInt.to_string (-150))) = Ok (VInt (-150)).
Proof.
  assert (H : Z.abs (-150) < 10 ^ 4300).
  { apply Z.lt_le_trans with (10 ^ 3); [reflexivity|].
    apply Z.pow_le_mono_r; lia. }
  split; [exact H|].
  exact (integer_text_is_exported_as_integer "Hp" (-150) H).
Defined.

(** X16. Blank header cells of different columns get different
    placeholder names. *)
Theorem placeholder_headers_differ (c1 c2 : nat) (v1 v2 : value) :
  Py.truthy v1 = false -> Py.truthy v2 = false -> c1 <> c2 ->
  header_of c1 v1 <> header_of c2 v2.
Proof.
  intros H1 H2 Hc. unfold header_of. rewrite H1, H2.
  cbn [String.append]. intros H. injection H as H.
  apply (f_equal PyInt.of_string) in H. rewrite !int_of_to_string in H.
  injection H as H. apply Hc. now apply Nat2Z.inj.
Qed.

Lemma placeholder_headers_witness :
  Py.truthy VNone = false /\ Py.truthy (VStr "") = false /\ 2%nat <> 11%nat /\
  header_of 2 VNone <> header_of 11 (VStr "").
Proof.
  split; [reflexivity|]. split; [reflexivity|]. split; [discriminate|].
  apply placeholder_headers_differ; [reflexivity|reflexivity|discriminate].
Defined.

(** X17. The type of a column is decided by its first value that is
    neither absent nor blank: a column without such a value is text; a
    first value that is not an integer fixes the type whatever follows;
    a first value that is an integer gives int, or float when some value
    of the column reads as a float with a decimal point. *)
Theorem first_value_decides_type (rows : list (Dict.t value)) (header : string) :
  (Forall (fun row => nonempty (row_get row header) = false) rows ->
   infer_type rows header = TString) /\
  (forall before row after,
      rows = before ++ row :: after ->
      Forall (fun r => nonempty (row_get r header) = false) before ->
      nonempty (row_get row header) = true ->
      infer_type rows header
      = match to_csharp_type header (row_get row header) with
        | TInt => if has_fractional rows header then TFloat else TInt
        | ty => ty
        end).
Proof.
  unfold infer_type. rewrite infer_from_first. unfold first_nonempty. split.
  - intros H. generalize (has_fractional rows header). intros promoted.
    induction H as [|row rest Hrow _ IH]; simpl; [reflexivity|].
    now rewrite Hrow.
  - intros before row after -> Hbefore Hrow.
    generalize (has_fractional (before ++ row :: after) header). intros promoted.
    induction Hbefore as [|r before Hr _ IH]; simpl.
    + now rewrite Hrow.
    + now rewrite Hr.
Qed.




(* ===================================================================== *)
(** ** Rows that are kept, keys that do not clash                         *)
(* ===================================================================== *)

Lemma plain_content_nonblank (v : value) :
  plain_content v -> nonblank (read_value v) = true.
Proof.
  destruct v as [| b | n | x | s]; simpl; try tauto; intros H.
  - unfold nonblank. now destruct b.
  - unfold nonblank. cbn [Py.is_none Py.str negb andb].
    rewrite (strip_clean _ (proj1 (to_string_clean n))).
    destruct (to_string_shape n) as [p [Hne [_ [_ ->]]]].
    destruct (n <? 0); [reflexivity|]. now destruct p.
  - unfold nonblank. cbn [Py.is_none Py.str negb andb].
    rewrite strip_idempotent. apply String.eqb_neq in H. now rewrite H.
Qed.

(** X19. A data row is kept when one of its cells, in the last column
    that carries its header, holds an integer, a boolean or a text that
    is not blank: the parsed table exists and contains the row. *)
Theorem row_with_content_is_kept (ws : worksheet) (r : nat) (h : string)
    (before after : list string) :
  (2 <= r <= max_row ws)%nat ->
  read_headers ws = before ++ h :: after -> ~ In h after ->
  plain_content (cell_value ws r (S (List.length before))) ->
  exists table,
    parse_sheet ws = Some table /\
    In (read_row ws (read_headers ws) r) (data table).
Proof.
  intros Hr Hhs Hh Hv.
  assert (Hcontent : row_has_content (read_row ws (read_headers ws) r) = true).
  { unfold row_has_content. apply existsb_exists.
    exists (read_value (cell_value ws r (S (List.length before)))).
    split; [|now apply plain_content_nonblank].
    unfold Dict.values. apply in_map_iff.
    exists (h, read_value (cell_value ws r (S (List.length before)))).
    split; [reflexivity|]. apply get_In. rewrite Hhs. unfold read_row.
    now rewrite read_row_from_last. }
  assert (Hin : In (read_row ws (read_headers ws) r)
                   (read_data_rows ws (read_headers ws))).
  { unfold read_data_rows. apply filter_In. split; [|exact Hcontent].
    apply in_map. apply in_seq. lia. }
  unfold parse_sheet.
  assert (Hrow : (max_row ws <? 2)%nat = false) by (apply Nat.ltb_ge; lia).
  rewrite Hrow.
  destruct (read_data_rows ws (read_headers ws)) as [|row rows] eqn:E;
    [destruct Hin|].
  eexists. split; [reflexivity|exact Hin].
Qed.

Lemma row_with_content_witness :
  let ws := sheet_of [ [VStr "Hp"; VStr "Name"; VStr "Hp"];
                       [VInt 10; VNone; VNone];
                       [VNone; VNone; VInt 0] ] in
  read_headers ws = ["Hp"; "Name"] ++ "Hp" :: [] /\
  plain_content (cell_value ws 3 (S (List.length ["Hp"; "Name"]))) /\
  exists table, parse_sheet ws = Some table /\
                In (read_row ws (read_headers ws) 3) (data table).
Proof.
  intros ws.
  assert (H1 : read_headers ws = ["Hp"; "Name"] ++ "Hp" :: [])
    by (vm_compute; reflexivity).
  split; [exact H1|]. split; [exact I|].
  apply (row_with_content_is_kept ws 3 "Hp" ["Hp"; "Name"] []);
    [simpl; lia|exact H1|simpl; tauto|exact I].
Defined.

Lemma NoDup_filter_map {A : Type} (f : A -> string) (p : A -> bool) (l : list A) :
  NoDup (map f l) -> NoDup (map f (filter p l)).
Proof.
  induction l as [|a l IH]; simpl; intros H; [constructor|].
  inversion H as [|? ? Ha Hl]; subst.
  destruct (p a); simpl; [|auto].
  constructor; [|auto].
  intros Hin. apply Ha. apply in_map_iff in Hin. destruct Hin as [x [Hx Hin]].
  apply filter_In in Hin. rewrite <- Hx. apply in_map. tauto.
Qed.

Lemma prefix_injective (prefix a b : string) :
  (prefix ++ a)%string = (prefix ++ b)%string -> a = b.
Proof.
  induction prefix as [|c p IH]; simpl; [tauto|].
  intros H. injection H as H. auto.
Qed.

Lemma NoDup_map_prefix (prefix : string) (l : list string) :
  NoDup l -> NoDup (map (fun name => (prefix ++ name)%string) l).
Proof.
  induction 1 as [|a l Ha _ IH]; simpl; constructor; [|exact IH].
  intros Hin. apply in_map_iff in Hin. destruct Hin as [x [Hx Hin]].
  apply prefix_injective in Hx. now subst.
Qed.

Lemma suffix_injective (suffix a b : string) :
  (a ++ suffix)%string = (b ++ suffix)%string -> a = b.
Proof.
  revert a b. induction suffix as [|q suffix IH]; intros a b H.
  - now rewrite !str_app_nil in H.
  - change (String q suffix) with (String q "" ++ suffix)%string in H.
    rewrite <- !str_app_assoc in H.
    apply IH in H. now apply append_inv_last in H.
Qed.

Lemma NoDup_map_suffix {A : Type} (f : A -> string) (suffix : string) (l : list A) :
  NoDup (map f l) -> NoDup (map (fun x => (f x ++ suffix)%string) l).
Proof.
  induction l as [|a l IH]; simpl; intros H; [constructor|].
  inversion H as [|? ? Ha Hl]; subst.
  constructor; [|auto].
  intros Hin. apply Ha. apply in_map_iff in Hin. destruct Hin as [x [Hx Hin]].
  apply suffix_injective in Hx. rewrite <- Hx. now apply in_map.
Qed.

(** X20. The tables of one workbook (sheet titles are distinct) get
    distinct table keys, and the JSON files written for them get distinct
    names. *)
Theorem workbook_keys_distinct (stem : string) (wb : workbook) :
  NoDup (map fst wb) ->
  NoDup (map fst (keyed_tables stem (Some wb))) /\
  NoDup (map (fun kt => (fst kt ++ ".json")%string)
             (keyed_tables stem (Some wb))).
Proof.
  intros Hnd.
  assert (Hkeys : NoDup (map fst (keyed_tables stem (Some wb))));
    [|split; [exact Hkeys|now apply NoDup_map_suffix]].
  rewrite (keyed_tables_names stem wb Hnd).
  unfold table_key.
  destruct (1 <? List.length (tables_of wb))%nat eqn:E.
  - rewrite <- (map_map fst (fun name => (stem ++ "_" ++ name)%string)).
    rewrite tables_of_keys.
    rewrite <- (map_map (fun name => ("_" ++ name)%string)
                        (fun name => (stem ++ name)%string)).
    apply NoDup_map_prefix, NoDup_map_prefix.
    now apply NoDup_filter_map.
  - apply Nat.ltb_ge in E.
    destruct (tables_of wb) as [|p [|q l]]; simpl in *; try lia;
      repeat constructor; simpl; tauto.
Qed.

Lemma workbook_keys_witness :
  let heroes := sheet_of [[VStr "Id"; VStr "Name"]; [VInt 1; VStr "Veteran"]] in
  let foes := sheet_of [[VStr "Id"; VStr "Hp"]; [VInt 7; VInt 30]] in
  NoDup (map fst [("Heroes", heroes); ("Foes", foes)]) /\
  NoDup (map fst (keyed_tables "Units" (Some [("Heroes", heroes); ("Foes", foes)]))) /\
  NoDup (map (fun kt => (fst kt ++ ".json")%string)
             (keyed_tables "Units" (Some [("Heroes", heroes); ("Foes", foes)]))).
Proof.
  intros heroes foes.
  assert (H : NoDup (map fst [("Heroes", heroes); ("Foes", foes)])).
  { simpl. repeat constructor; simpl; intuition discriminate. }
  split; [exact H|]. exact (workbook_keys_distinct "Units" _ H).
Defined.
